(** * codebase-analyzer: a shallow embedding of [src/codebase-analyzer.ts]
      and [src/util.ts], with the properties stated about them.

    JavaScript strings are sequences of UTF-16 code units; they are modelled
    as lists of code units ([N]).  JavaScript numbers that hold counts, sizes
    and budgets are modelled as [Z].  Logging ([console.warn],
    [console.error]) has no influence on any result and is left out. *)

From Stdlib Require Import String Ascii.
From Stdlib Require Import List ZArith NArith Bool Lia DecimalString.
Import ListNotations.
Open Scope Z_scope.

(** ** JavaScript strings *)

Definition jsstring := list N.

(** An ASCII literal as a JavaScript string. *)
Definition lit (s : string) : jsstring :=
  map N_of_ascii (list_ascii_of_string s).

Definition LF : N := 10%N.
Definition SPACE : N := 32%N.
Definition DOT : N := 46%N.
Definition SLASH : N := 47%N.

(** The character class [\s] of ECMAScript regular expressions, which is also
    the set stripped by [String.prototype.trim]: WhiteSpace and
    LineTerminator code points. *)
Definition is_space (c : N) : bool :=
  ((9 <=? c) && (c <=? 13) ||
   (c =? 32) || (c =? 160) || (c =? 5760) ||
   ((8192 <=? c) && (c <=? 8202)) ||
   (c =? 8232) || (c =? 8233) || (c =? 8239) || (c =? 8287) ||
   (c =? 12288) || (c =? 65279))%N.

Definition jsstring_eqb (a b : jsstring) : bool :=
  if list_eq_dec N.eq_dec a b then true else false.

Fixpoint startsWith (s prefix : jsstring) : bool :=
  match prefix, s with
  | [], _ => true
  | p :: prefix', c :: s' => (N.eqb c p) && startsWith s' prefix'
  | _ :: _, [] => false
  end.

Definition endsWith (s suffix : jsstring) : bool :=
  startsWith (rev s) (rev suffix).

(** [Array.prototype.join] on an array of strings. *)
Fixpoint join (sep : jsstring) (l : list jsstring) : jsstring :=
  match l with
  | [] => []
  | [x] => x
  | x :: rest => x ++ sep ++ join sep rest
  end.

(** [Array.prototype.slice(0, end)] for an integral [end]: a negative [end]
    counts from the back, and the result is clamped to the array. *)
Definition slice0 {A : Type} (l : list A) (endv : Z) : list A :=
  let len := Z.of_nat (length l) in
  let final := if endv <? 0 then Z.max (len + endv) 0 else Z.min endv len in
  firstn (Z.to_nat final) l.

(** [s.split(/\s+/)].  The pattern matches a maximal run of white space, so
    the string is cut at every such run: [piece] is the substring collected
    since the end of the previous match and [inRun] tells that the previous
    code unit belonged to a match.  A run at the very start gives a first
    empty piece, a run at the very end a last empty piece, and the empty
    string gives the one-element array holding the empty string. *)
Fixpoint split_ws_from (piece : jsstring) (inRun : bool) (s : jsstring)
  : list jsstring :=
  match s with
  | [] => [piece]
  | c :: rest =>
      if is_space c then
        if inRun then split_ws_from piece true rest
        else piece :: split_ws_from [] true rest
      else split_ws_from (piece ++ [c]) false rest
  end.

Definition split_ws (s : jsstring) : list jsstring :=
  split_ws_from [] false s.

(** [String.prototype.trim]. *)
Fixpoint trimStart (s : jsstring) : jsstring :=
  match s with
  | [] => []
  | c :: rest => if is_space c then trimStart rest else s
  end.

Definition trim (s : jsstring) : jsstring :=
  rev (trimStart (rev (trimStart s))).

(** [String.prototype.repeat]. *)
Fixpoint repeat_str (s : jsstring) (n : nat) : jsstring :=
  match n with
  | O => []
  | S n' => s ++ repeat_str s n'
  end.

(** ** Configuration ([Config] after the constructor's defaults) *)

Record Config := mkConfig {
  directory : jsstring;
  relevantExtensions : list jsstring;
  maxFileSize : Z;
  maxTokens : Z;
  ignorePatterns : list jsstring;
  ignoreFilesWithNoExtension : bool;
  memoryLimitMB : Z
}.

Definition defaultExtensions : list jsstring :=
  map lit [".js"; ".ts"; ".jsx"; ".tsx"; ".json"; ".java"; ".kt"; ".swift";
           ".c"; ".cpp"; ".h"; ".go"; ".py"; ".rb"; ".php"; ".html"; ".css";
           ".scss"; ".less"]%string.

Definition defaultIgnorePatterns : list jsstring :=
  map lit ["node_modules"; "vendor"; "dist"; "build"; "public"; "android";
           "fastlane"; "ios"; "tmp"; "package.lock.json"]%string.

(** The configuration the constructor builds from [{}], with the directory
    already resolved to [dir]. *)
Definition defaultConfig (dir : jsstring) : Config :=
  mkConfig dir defaultExtensions 100000 100000 defaultIgnorePatterns true 64.

(** ** ContextTruncator *)

(** The approximate token count the truncator compares with the budget. *)
Definition tokenCount (s : jsstring) : Z :=
  Z.of_nat (length (split_ws s)).

Definition truncateContext (cfg : Config) (context : jsstring) : jsstring :=
  let tokens := split_ws context in
  if maxTokens cfg <? Z.of_nat (length tokens)
  then join (lit " ") (slice0 tokens (maxTokens cfg))
  else context.

(** ** Node's [path] module (POSIX flavour) *)

Definition isSlash (c : N) : bool := (c =? SLASH)%N.
Definition isDot (c : N) : bool := (c =? DOT)%N.
Definition notSlash (c : N) : bool := negb (isSlash c).

Fixpoint takeWhile {A : Type} (p : A -> bool) (l : list A) : list A :=
  match l with
  | [] => []
  | x :: r => if p x then x :: takeWhile p r else []
  end.

Fixpoint dropWhile {A : Type} (p : A -> bool) (l : list A) : list A :=
  match l with
  | [] => []
  | x :: r => if p x then dropWhile p r else l
  end.

(** [path.basename(p)]: the last portion of the path, trailing separators
    ignored. *)
Definition basename (p : jsstring) : jsstring :=
  rev (takeWhile notSlash (dropWhile isSlash (rev p))).

(** [String.prototype.slice(from, to)] for indices inside the string. *)
Definition str_slice (s : jsstring) (from to : Z) : jsstring :=
  firstn (Z.to_nat (to - from)) (skipn (Z.to_nat from) s).

(** The variables of the loop of [path.extname]. *)
Record extState := mkExtState {
  startDot : Z;
  startPart : Z;
  endPos : Z;
  matchedSlash : bool;
  preDotState : Z
}.

Definition extInit : extState := mkExtState (-1) 0 (-1) true 0.

(** The loop of [path.extname] as Node's [lib/path.js] has it for POSIX
    paths, [for (i = path.length - 1; i >= 0; --i)]: [codes] are the code
    units at indices [i], [i-1], ..., [0].

    - a separator after the last component was entered ends the loop and
      records where the component starts; separators before that (trailing
      ones) are skipped;
    - the first other code unit met marks the end of the extension;
    - the first dot met (the right-most one of the component) is the start
      of the extension; after it, [preDotState] remembers whether the code
      unit just read was a dot (1) or not (-1), and stays 0 when nothing
      was read. *)
Fixpoint extname_loop (codes : list N) (i : Z) (st : extState) : extState :=
  match codes with
  | [] => st
  | code :: more =>
      if isSlash code then
        if negb (matchedSlash st)
        then mkExtState (startDot st) (i + 1) (endPos st) (matchedSlash st)
               (preDotState st)
        else extname_loop more (i - 1) st
      else
        let st1 :=
          if endPos st =? -1
          then mkExtState (startDot st) (startPart st) (i + 1) false
                 (preDotState st)
          else st in
        let st2 :=
          if isDot code then
            if startDot st1 =? -1
            then mkExtState i (startPart st1) (endPos st1) (matchedSlash st1)
                   (preDotState st1)
            else if negb (preDotState st1 =? 1)
            then mkExtState (startDot st1) (startPart st1) (endPos st1)
                   (matchedSlash st1) 1
            else st1
          else if negb (startDot st1 =? -1)
          then mkExtState (startDot st1) (startPart st1) (endPos st1)
                 (matchedSlash st1) (-1)
          else st1 in
        extname_loop more (i - 1) st2
  end.

(** The test after the loop: no extension when there is no dot, no
    component, nothing before the dot, or the component is exactly [..]. *)
Definition extname_none (st : extState) : bool :=
  (startDot st =? -1) || (endPos st =? -1) || (preDotState st =? 0) ||
  ((preDotState st =? 1) && (startDot st =? endPos st - 1) &&
   (startDot st =? startPart st + 1)).

(** [path.extname(p)]. *)
Definition extname (p : jsstring) : jsstring :=
  let st := extname_loop (rev p) (Z.of_nat (length p) - 1) extInit in
  if extname_none st then [] else str_slice p (startDot st) (endPos st).

(** Auxiliary notions for reasoning about the loop: a code unit that is
    neither a separator nor a dot; what ends the scan of a component (the
    start of the string or a separator); and [preDotState] after reading the
    code units [bf] (right to left) that precede the dot. *)
Definition plainCode (c : N) : bool := negb (isSlash c) && negb (isDot c).

Definition stopsScan (tail : list N) : Prop :=
  tail = [] \/ exists c r, tail = c :: r /\ isSlash c = true.

Definition preDotAfter (bf : list N) (pd : Z) : Z :=
  fold_left (fun _ c => if isDot c then 1 else -1) bf pd.

(** ** PathFilter: [hasExtension] *)

Definition hasExtension (filePath : jsstring) : bool :=
  negb (jsstring_eqb (extname filePath) []).

(** The reading of [hasExtension] in the specification: the final component
    holds a dot that is not at position 0 and is followed by characters. *)
Fixpoint dotThenChars (s : jsstring) : bool :=
  match s with
  | c :: (_ :: _) as rest => isDot c || dotThenChars rest
  | _ => false
  end.

Definition spec_hasExtension (filePath : jsstring) : bool :=
  dotThenChars (tl (basename filePath)).

(** What the code computes: the final component holds a dot that is not at
    position 0, and is not the parent directory name [..]. *)
Definition dotAfterStart (filePath : jsstring) : bool :=
  existsb isDot (tl (basename filePath)) &&
  negb (jsstring_eqb (basename filePath) (lit "..")).

(** ** [formatSize] ([src/util.ts]) on integral byte counts *)

Definition units : list jsstring :=
  map lit ["bytes"; "KB"; "MB"; "GB"; "TB"]%string.

(** [Math.floor(Math.log(size) / Math.log(1024))] for an integer
    [size >= 1], taken at its mathematical value: the number of whole
    factors of 1024 in [size].  (The double-precision quotient can differ
    from it only where it is within rounding error of an integer, next to a
    power of 1024; at 1024 itself it is a number divided by itself, exactly
    1.) *)
Definition log1024_floor (size : Z) : Z := Z.log2 size / 10.

(** A decimal number of three significant digits,
    [mant * 10^(expo - 2)] with [100 <= mant <= 999]: what
    [toPrecision(3)] prints and [Number] reads back. *)
Record decimal3 := mkDecimal3 { mant : Z; expo : Z }.

(** [(num / den).toPrecision(3)] for a quotient in [[1, 1024)]: the decimal
    exponent, then the three-digit mantissa closest to the quotient, the
    larger one on a tie; a mantissa that rounds up to 1000 moves to the next
    exponent. *)
Definition toPrecision3 (num den : Z) : decimal3 :=
  let e := if num <? 10 * den then 0
           else if num <? 100 * den then 1
           else if num <? 1000 * den then 2
           else 3 in
  let n := if e =? 3 then (2 * num + 10 * den) / (20 * den)
           else (2 * num * 10 ^ (2 - e) + den) / (2 * den) in
  if n =? 1000 then mkDecimal3 100 (e + 1) else mkDecimal3 n e.

Definition digitsOf (n : Z) : jsstring :=
  lit (DecimalString.NilZero.string_of_uint (N.to_uint (Z.to_N n))).

(** The string a template literal gives for the number
    [sign * mant * 10^(expo - 2)]: plain decimal notation, no trailing
    zeros in the fraction, no decimal point for an integer. *)
Definition numberToString (sign : Z) (d : decimal3) : jsstring :=
  let n := mant d in
  let body :=
    if 2 <=? expo d then digitsOf (n * 10 ^ (expo d - 2))
    else if expo d =? 1 then
      if n mod 10 =? 0 then digitsOf (n / 10)
      else digitsOf (n / 10) ++ lit "." ++ digitsOf (n mod 10)
    else
      if n mod 100 =? 0 then digitsOf (n / 100)
      else if n mod 10 =? 0
      then digitsOf (n / 100) ++ lit "." ++ digitsOf (n mod 100 / 10)
      else digitsOf (n / 100) ++ lit "." ++ digitsOf (n mod 100 / 10)
             ++ digitsOf (n mod 10) in
  if sign <? 0 then lit "-" ++ body else body.

Definition formatSize (bytes : Z) : jsstring :=
  if bytes =? 0 then lit "0 bytes" else
  let size := Z.abs bytes in
  let index := log1024_floor size in
  let formattedSize := toPrecision3 size (1024 ^ index) in
  numberToString (Z.sgn bytes) formattedSize ++ lit " " ++
  nth (Z.to_nat index) units (lit "undefined").


(** ** The file tree ([FileNode], [src/types.ts]) *)

Unset Elimination Schemes.
Inductive FileNode : Type := mkFileNode {
  name : jsstring;
  path : jsstring;
  size : Z;
  isDirectory : bool;
  children : list FileNode
}.
Set Elimination Schemes.

(** The nodes of a tree, files and directories together.  As in every
    traversal of the source ([countTotalFiles], [processFileTree],
    [buildTreeView]), the [children] of a node that is not a directory are
    not part of the tree. *)
Fixpoint countNode (node : FileNode) : nat :=
  match node with
  | mkFileNode _ _ _ isDir ch =>
      S (if isDir
         then (fix count (nodes : list FileNode) : nat :=
                 match nodes with
                 | [] => O
                 | n :: rest => (countNode n + count rest)%nat
                 end) ch
         else O)
  end.

Fixpoint countNodes (nodes : list FileNode) : nat :=
  match nodes with
  | [] => O
  | n :: rest => (countNode n + countNodes rest)%nat
  end.



(** ** TreeRenderer *)

Definition CONN_LAST : jsstring := [9492; 9472; 9472]%N.   (* U+2514 U+2500 U+2500 *)
Definition CONN_MID : jsstring := [9500; 9472; 9472]%N.    (* U+251C U+2500 U+2500 *)
Definition DIR_MARK : jsstring := [55357; 56513]%N.        (* U+1F4C1 *)
Definition FILE_MARK : jsstring := [9776]%N.               (* U+2630 *)
Definition INDENT_LAST : jsstring := lit "    ".
Definition INDENT_MID : jsstring := (9474 :: lit "   ")%N.  (* U+2502 *)

(** The line of one node, without its line feed. *)
Definition treeLine (indent : jsstring) (isLastItem : bool) (node : FileNode)
  : jsstring :=
  let size := if isDirectory node then []
              else lit " " ++ formatSize (size node) in
  indent ++ (if isLastItem then CONN_LAST else CONN_MID) ++ lit " " ++
  (if isDirectory node then DIR_MARK else FILE_MARK) ++ lit " " ++
  name node ++ size.

Definition childIndent (indent : jsstring) (isLastItem : bool) : jsstring :=
  indent ++ (if isLastItem then INDENT_LAST else INDENT_MID).

(** The body of the loop of [buildTreeView] for the entry [node]; the
    recursive call on the children runs the same loop, from index 0. *)
Fixpoint buildTreeView_entry (indent : jsstring) (isLastItem : bool)
  (node : FileNode) {struct node} : jsstring :=
  match node with
  | mkFileNode _ _ _ isDir ch =>
      (treeLine indent isLastItem node ++ [LF]) ++
      (if isDir
       then (fix entries (nodes : list FileNode) (index len : Z) : jsstring :=
               match nodes with
               | [] => []
               | n :: rest =>
                   buildTreeView_entry (childIndent indent isLastItem)
                     (index =? len - 1) n
                   ++ entries rest (index + 1) len
               end) ch 0 (Z.of_nat (length ch))
       else [])
  end.

(** [for (const [index, node] of nodes.entries())], from [index] on, in an
    array of length [len]. *)
Fixpoint buildTreeView_loop (nodes : list FileNode) (index len : Z)
  (indent : jsstring) : jsstring :=
  match nodes with
  | [] => []
  | n :: rest =>
      buildTreeView_entry indent (index =? len - 1) n
      ++ buildTreeView_loop rest (index + 1) len indent
  end.

Definition buildTreeView (nodes : list FileNode) (indent : jsstring)
  : jsstring :=
  buildTreeView_loop nodes 0 (Z.of_nat (length nodes)) indent.

(** The tree view as the specification describes it: one line per node,
    the last sibling of a level with the closing connector; the lines of the
    children follow their directory, further indented. *)
Fixpoint spec_nodeLines (indent : jsstring) (isLast : bool) (node : FileNode)
  {struct node} : list jsstring :=
  match node with
  | mkFileNode _ _ _ isDir ch =>
      treeLine indent isLast node ::
      (if isDir
       then (fix siblings (nodes : list FileNode) : list jsstring :=
               match nodes with
               | [] => []
               | n :: rest =>
                   spec_nodeLines (childIndent indent isLast)
                     (match rest with [] => true | _ => false end) n
                   ++ siblings rest
               end) ch
       else [])
  end.

Fixpoint spec_treeLines (nodes : list FileNode) (indent : jsstring)
  : list jsstring :=
  match nodes with
  | [] => []
  | n :: rest =>
      spec_nodeLines indent (match rest with [] => true | _ => false end) n
      ++ spec_treeLines rest indent
  end.

(** Lines to text: every line is closed by a line feed. *)
Definition unlines (ls : list jsstring) : jsstring :=
  concat (map (fun l => l ++ [LF]) ls).


(** A small tree used in examples: a directory with two files, then a
    file. *)
Definition sampleTree : list FileNode :=
  [ mkFileNode (lit "src") (lit "/r/src") 4096 true
      [ mkFileNode (lit "a.ts") (lit "/r/src/a.ts") 1536 false [];
        mkFileNode (lit "b.ts") (lit "/r/src/b.ts") 10 false [] ];
    mkFileNode (lit "x.js") (lit "/r/x.js") 0 false [] ].

(** ** Errors and results *)

Inductive exn : Type :=
| Error (message : jsstring)
| SyntaxError (pattern : jsstring)      (* [new RegExp] on an invalid source *)
| SystemError (syscallPath : jsstring). (* a failed [fs] call *)

Inductive outcome (A : Type) : Type :=
| Returned (value : A)
| Thrown (e : exn).
Arguments Returned {A} value.
Arguments Thrown {A} e.

Definition noRelevantFiles : exn := Error (lit "No relevant files found.").

Definition memoryLimitExceeded : exn :=
  Error (lit "Your codebase is too large to process. Please try again with a smaller one.").

(** ** The collaborators of the analyzer

    What the analyzer takes from its host: the regular-expression engine
    ([None] for a source that does not compile, else the [test] function of
    the compiled expression, which has no state for an expression without
    flags), [path.relative] and [path.join], reading a file as text ([None]
    when the read fails), the heap probe ([heapUsed k] is the [heapUsed]
    field, in bytes, of the [k]-th call of [process.memoryUsage()]), and the
    tokenizer. *)
Class Host : Type := {
  RegExp : jsstring -> option (jsstring -> bool);
  path_relative : jsstring -> jsstring -> jsstring;
  path_join : jsstring -> jsstring -> jsstring;
  readFile : jsstring -> option jsstring;
  heapUsed : nat -> Z;
  countTokens : jsstring -> Z
}.

(** The file system below the analysed directory, as [fs.readdir] and
    [fs.stat] show it: an entry is a directory with its listing ([None] when
    [readdir] fails on it), something else ([regular] tells whether
    [stats.isFile()] holds), or a name whose [stat] fails (a dangling link,
    say). *)
Unset Elimination Schemes.
Inductive fsentry : Type :=
| FsFile (item : jsstring) (bytes : Z) (regular : bool)
| FsDir (item : jsstring) (bytes : Z) (listing : option (list fsentry))
| FsBroken (item : jsstring).
Set Elimination Schemes.

Definition entryName (e : fsentry) : jsstring :=
  match e with
  | FsFile item _ _ | FsDir item _ _ | FsBroken item => item
  end.

Record Stats := mkStats {
  st_size : Z;
  st_isDirectory : bool;
  st_isFile : bool
}.

(** [fs.stat]; [None] when it throws. *)
Definition stat (e : fsentry) : option Stats :=
  match e with
  | FsFile _ bytes regular => Some (mkStats bytes false regular)
  | FsDir _ bytes _ => Some (mkStats bytes true false)
  | FsBroken _ => None
  end.

(** The counters of an analyzer instance. *)
Record AnalyzerState := mkState {
  processedFiles : Z;
  totalFiles : Z;
  totalSize : Z
}.

Definition initialState : AnalyzerState := mkState 0 0 0.

Record FileStats := mkFileStats {
  out_totalSize : Z;
  out_totalCount : Z;
  out_processedCount : Z
}.

Record Output := mkOutput {
  out_context : jsstring;
  out_tokenCount : Z;
  out_treeView : jsstring;
  out_files : FileStats
}.

Section Analyzer.

Context {host : Host}.
Variable cfg : Config.

(** ** PathFilter *)

(** [this.ignorePatterns.map((pattern) => new RegExp(pattern))]: the first
    source that does not compile throws. *)
Fixpoint compilePatterns (sources : list jsstring)
  : outcome (list (jsstring -> bool)) :=
  match sources with
  | [] => Returned []
  | source :: rest =>
      match RegExp source with
      | None => Thrown (SyntaxError source)
      | Some test =>
          match compilePatterns rest with
          | Returned tests => Returned (test :: tests)
          | Thrown e => Thrown e
          end
      end
  end.

Definition shouldIgnore (filePath : jsstring) : outcome bool :=
  let relativePath := path_relative (directory cfg) filePath in
  match compilePatterns (ignorePatterns cfg) with
  | Thrown e => Thrown e
  | Returned patterns =>
      Returned
        (startsWith relativePath (lit ".") ||
         existsb (fun pattern =>
                    pattern relativePath || pattern (basename filePath))
                 patterns)
  end.

(** [isRelevantFile]; [e] is what the path names.  A failing [stat] is
    caught and gives [false]. *)
Definition isRelevantFile (filePath : jsstring) (e : fsentry) : bool :=
  if ignoreFilesWithNoExtension cfg && negb (hasExtension filePath)
  then false
  else
    match stat e with
    | None => false
    | Some stats =>
        if negb (st_isFile stats) then false
        else (st_size stats <=? maxFileSize cfg) &&
             existsb (fun ext => endsWith filePath ext)
                     (relevantExtensions cfg)
    end.

(** ** TreeCrawler *)

Definition addToTotalSize (n : Z) (s : AnalyzerState) : AnalyzerState :=
  mkState (processedFiles s) (totalFiles s) (totalSize s + n).

Definition isThrown {A : Type} (o : outcome A) : bool :=
  match o with Thrown _ => true | Returned _ => false end.

(** [await Promise.all(filePromises)] and the loop after it, inside the
    [try]: when a callback threw, control goes to [catch] with [files]
    still empty; otherwise the nodes that are not [null] are pushed in
    order. *)
Definition collectFiles (results : list (outcome (option FileNode)))
  : list FileNode :=
  if existsb isThrown results then []
  else flat_map (fun r => match r with
                          | Returned (Some node) => [node]
                          | _ => []
                          end) results.

(** The callback that [gatherFiles] maps over the items of [dir], for the
    item [e]; the recursive call on a directory maps the same callback over
    its listing.  All callbacks are started before the first result is
    awaited, so each runs to its end even when another one throws: the
    counters are threaded through all of them (the additions commute, so
    the order of completion does not matter), and the state returned is the
    one reached when every callback has settled. *)
Fixpoint gatherItem (dir : jsstring) (e : fsentry) (s : AnalyzerState)
  {struct e} : outcome (option FileNode) * AnalyzerState :=
  let fullPath := path_join dir (entryName e) in
  match shouldIgnore fullPath with
  | Thrown ex => (Thrown ex, s)
  | Returned true => (Returned None, s)
  | Returned false =>
      match e with
      | FsBroken _ => (Thrown (SystemError fullPath), s)
      | FsFile item bytes _ =>
          if isRelevantFile fullPath e
          then (Returned (Some (mkFileNode item fullPath bytes false [])),
                addToTotalSize bytes s)
          else (Returned None, s)
      | FsDir item bytes listing =>
          let '(files, s') :=
            match listing with
            | None => ([], s)
            | Some items =>
                let '(results, s') :=
                  (fix callbacks (items : list fsentry) (s : AnalyzerState)
                     : list (outcome (option FileNode)) * AnalyzerState :=
                     match items with
                     | [] => ([], s)
                     | x :: rest =>
                         let '(r, s1) := gatherItem fullPath x s in
                         let '(rs, s2) := callbacks rest s1 in
                         (r :: rs, s2)
                     end) items s in
                (collectFiles results, s')
            end in
          if (0 <? Z.of_nat (length files))
          then (Returned (Some (mkFileNode item fullPath bytes true files)), s')
          else (Returned None, s')
      end
  end.

Fixpoint gatherItems (dir : jsstring) (items : list fsentry)
  (s : AnalyzerState) : list (outcome (option FileNode)) * AnalyzerState :=
  match items with
  | [] => ([], s)
  | x :: rest =>
      let '(r, s1) := gatherItem dir x s in
      let '(rs, s2) := gatherItems dir rest s1 in
      (r :: rs, s2)
  end.

(** [gatherFiles(dir)], [listing] being what [fs.readdir(dir)] gives
    ([None] when it throws, which is caught). *)
Definition gatherFiles (dir : jsstring) (listing : option (list fsentry))
  (s : AnalyzerState) : list FileNode * AnalyzerState :=
  match listing with
  | None => ([], s)
  | Some items =>
      let '(results, s') := gatherItems dir items s in
      (collectFiles results, s')
  end.

(** The pruning invariant: no directory node, at any depth, has an empty
    sequence of children. *)
Fixpoint prunedNode (node : FileNode) : bool :=
  match node with
  | mkFileNode _ _ _ isDir ch =>
      (if isDir then negb (Nat.eqb (length ch) 0) else true) &&
      (fix all (nodes : list FileNode) : bool :=
         match nodes with
         | [] => true
         | n :: rest => prunedNode n && all rest
         end) ch
  end.

Definition pruned (nodes : list FileNode) : bool := forallb prunedNode nodes.

(** ** ContextAssembler *)

(** The part of the world the assembly works on: the counters of the
    instance and the number of heap probes made so far. *)
Record World := mkWorld {
  counters : AnalyzerState;
  probes : nat
}.

(** Computations that read and change the world and may throw. *)
Definition M (A : Type) : Type := World -> outcome A * World.

Definition ret {A : Type} (a : A) : M A := fun w => (Returned a, w).

Definition throw {A : Type} (e : exn) : M A := fun w => (Thrown e, w).

Definition bind {A B : Type} (m : M A) (k : A -> M B) : M B :=
  fun w =>
    match m w with
    | (Returned a, w') => k a w'
    | (Thrown e, w') => (Thrown e, w')
    end.

Notation "x <- m ;; k" := (bind m (fun x => k))
  (at level 61, m at next level, right associativity).

Fixpoint countTotalFiles_node (node : FileNode) : Z :=
  match node with
  | mkFileNode _ _ _ isDir ch =>
      if isDir
      then (fix sum (nodes : list FileNode) : Z :=
              match nodes with
              | [] => 0
              | n :: rest => countTotalFiles_node n + sum rest
              end) ch
      else 1
  end.

(** [countTotalFiles]: the counts of the nodes, summed from 0. *)
Fixpoint countTotalFiles (nodes : list FileNode) : Z :=
  match nodes with
  | [] => 0
  | n :: rest => countTotalFiles_node n + countTotalFiles rest
  end.

(** The block pushed for a file that was read. *)
Definition fileBlock (node : FileNode) (content : jsstring) : jsstring :=
  lit "File: " ++ path node ++ lit " (" ++ formatSize (size node) ++ lit ")"
  ++ [LF; LF] ++ trim content ++ [LF; LF] ++ repeat_str (lit "=") 20 ++ [LF].

Definition incrementProcessed (s : AnalyzerState) : AnalyzerState :=
  mkState (processedFiles s + 1) (totalFiles s) (totalSize s).

(** [checkMemoryUsage].  [heapUsed / 1024 / 1024 > memoryLimitMB] is
    decided on the bytes: the two divisions only rescale by a power of
    two. *)
Definition checkMemoryUsage : M unit :=
  fun w =>
    let used := heapUsed (probes w) in
    let w' := mkWorld (counters w) (S (probes w)) in
    if memoryLimitMB cfg * 1048576 <? used
    then (Thrown memoryLimitExceeded, w')
    else (Returned tt, w').

(** The [try] block of [processFileTree] for a file: a failed read is
    caught and the file skipped.  The array [context] is passed along and
    returned with the block pushed. *)
Definition readAndPush (node : FileNode) (context : list jsstring)
  : M (list jsstring) :=
  fun w =>
    match readFile (path node) with
    | Some content =>
        (Returned (context ++ [fileBlock node content]),
         mkWorld (incrementProcessed (counters w)) (probes w))
    | None => (Returned context, w)
    end.

(** The body of the loop of [processFileTree] for [node]: the children of a
    directory or the read of a file, then the memory guard. *)
Fixpoint processNode (node : FileNode) (context : list jsstring)
  {struct node} : M (list jsstring) :=
  match node with
  | mkFileNode _ _ _ isDir ch =>
      context' <-
        (if isDir
         then (fix each (nodes : list FileNode) (context : list jsstring)
                 : M (list jsstring) :=
                 match nodes with
                 | [] => ret context
                 | n :: rest =>
                     context' <- processNode n context ;; each rest context'
                 end) ch context
         else readAndPush node context) ;;
      _ <- checkMemoryUsage ;;
      ret context'
  end.

Fixpoint processFileTree (nodes : list FileNode) (context : list jsstring)
  : M (list jsstring) :=
  match nodes with
  | [] => ret context
  | n :: rest =>
      context' <- processNode n context ;; processFileTree rest context'
  end.

Definition setTotalFiles (n : Z) : M unit :=
  fun w =>
    (Returned tt,
     mkWorld (mkState (processedFiles (counters w)) n (totalSize (counters w)))
       (probes w)).

Definition gatherContext (fileTree : list FileNode) : M jsstring :=
  _ <- setTotalFiles (countTotalFiles fileTree) ;;
  context <- processFileTree fileTree [] ;;
  if Nat.eqb (length context) 0 then throw noRelevantFiles
  else ret (join [LF] context).

(** ** Analyzer *)

(** [gatherFiles] on the counters of the world. *)
Definition gatherFilesM (dir : jsstring) (listing : option (list fsentry))
  : M (list FileNode) :=
  fun w =>
    let '(files, s') := gatherFiles dir listing (counters w) in
    (Returned files, mkWorld s' (probes w)).

Definition readCounters : M AnalyzerState :=
  fun w => (Returned (counters w), w).

(** [analyze()], [rootListing] being what [fs.readdir] gives for the
    configured directory.  The [catch] logs and throws the error again. *)
Definition analyze (rootListing : option (list fsentry)) : M Output :=
  fileNode <- gatherFilesM (directory cfg) rootListing ;;
  context <- gatherContext fileNode ;;
  let truncatedContext := truncateContext cfg context in
  let tokenCount := countTokens truncatedContext in
  let treeView := buildTreeView fileNode [] in
  this <- readCounters ;;
  ret (mkOutput truncatedContext tokenCount treeView
         (mkFileStats (totalSize this) (totalFiles this)
            (processedFiles this))).

(** No file of the tree can be read. *)
Fixpoint noneReadable_node (node : FileNode) : bool :=
  match node with
  | mkFileNode _ p _ isDir ch =>
      if isDir
      then (fix all (nodes : list FileNode) : bool :=
              match nodes with
              | [] => true
              | n :: rest => noneReadable_node n && all rest
              end) ch
      else match readFile p with None => true | Some _ => false end
  end.

Definition noneReadable (nodes : list FileNode) : bool :=
  forallb noneReadable_node nodes.

(** None of the [n] heap probes from the [k]-th on exceeds the limit. *)
Definition withinLimit (k n : nat) : Prop :=
  forall j, (j < n)%nat ->
            heapUsed (k + j) <= memoryLimitMB cfg * 1048576.

End Analyzer.

(** ** A host for examples *)

(** A regular-expression engine for the fragment of the pattern language
    made of literal code units and the wildcard [.], which covers the
    default ignore patterns: an expression matches a text when it matches at
    some position.  It serves to run the definitions on concrete inputs;
    sources outside the fragment are not modelled, and this engine refuses
    them. *)
Definition isSyntaxCharacter (c : N) : bool :=
  existsb (N.eqb c) (lit "^$\.*+?()[]{}|").

Definition isLineTerminator (c : N) : bool :=
  ((c =? 10) || (c =? 13) || (c =? 8232) || (c =? 8233))%N.

Fixpoint matchHere (source text : jsstring) : bool :=
  match source, text with
  | [], _ => true
  | _ :: _, [] => false
  | p :: source', c :: text' =>
      (if isDot p then negb (isLineTerminator c) else (p =? c)%N)
      && matchHere source' text'
  end.

Fixpoint searchFrom (source text : jsstring) : bool :=
  matchHere source text ||
  match text with
  | [] => false
  | _ :: text' => searchFrom source text'
  end.

Definition fragmentRegExp (source : jsstring) : option (jsstring -> bool) :=
  if forallb (fun c => isDot c || negb (isSyntaxCharacter c)) source
  then Some (searchFrom source)
  else None.

(** [path.relative(from, to)] and [path.join(dir, item)] for a resolved
    directory other than the root and a path or an item below it. *)
Definition relativeBelow (from to : jsstring) : jsstring :=
  if startsWith to (from ++ lit "/")
  then skipn (length from + 1) to
  else to.

Definition joinBelow (dir item : jsstring) : jsstring :=
  dir ++ lit "/" ++ item.

(** A host with a constant heap reading and the given file contents; its
    tokenizer is a stand-in, the white-space token count. *)
Definition sampleHost (heap : Z) (files : jsstring -> option jsstring)
  : Host :=
  Build_Host fragmentRegExp relativeBelow joinBelow files (fun _ => heap)
    tokenCount.

Definition sampleRoot : option (list fsentry) :=
  Some [ FsDir (lit "node_modules") 4096
           (Some [FsFile (lit "b.ts") 10 true]);
         FsDir (lit "src") 4096
           (Some [FsFile (lit "a.ts") 1536 true;
                  FsFile (lit "README") 20 true;
                  FsDir (lit "empty") 4096 (Some [])]);
         FsFile (lit ".gitignore") 5 true;
         FsFile (lit "x.js") 7 true ].

(** A node occurs in a tree, at any depth. *)
Inductive inTree (node : FileNode) : list FileNode -> Prop :=
| inTree_here (nodes : list FileNode) :
    In node nodes -> inTree node nodes
| inTree_below (parent : FileNode) (nodes : list FileNode) :
    In parent nodes -> inTree node (children parent) -> inTree node nodes.

(** Auxiliary notions for reasoning about the crawler: the node a callback
    returns, if any, satisfies the pruning invariant; a traversal adds
    [delta] to [totalSize]; and a traversal returns the same value and adds
    the same amount from every state. *)
Definition resultPruned (r : outcome (option FileNode)) : Prop :=
  match r with
  | Returned (Some node) => prunedNode node = true
  | _ => True
  end.

Definition stateAfter (delta : Z) (s : AnalyzerState) : AnalyzerState :=
  mkState (processedFiles s) (totalFiles s) (totalSize s + delta).

Definition sameRun {A : Type} (f : AnalyzerState -> A * AnalyzerState)
  : Prop :=
  exists (a : A) (delta : Z), forall s, f s = (a, stateAfter delta s).

(** One of the [n] heap probes from the [k]-th on exceeds the limit. *)
Definition trips {host : Host} (cfg : Config) (k n : nat) : Prop :=
  exists j, (j < n)%nat /\
            memoryLimitMB cfg * 1048576 < heapUsed (k + j).

(** What a stretch of the assembly that makes [n] heap probes does to the
    array it is given: with all probes within the limit it returns the
    array, possibly longer (unchanged when [unread] holds, no file of the
    stretch being readable), after exactly [n] probes; with a probe over the
    limit it throws the error of the memory guard. *)
Definition assemblyStep {host : Host} (cfg : Config) (n : nat)
  (unread : bool) (m : list jsstring -> M (list jsstring)) : Prop :=
  forall context w,
    (withinLimit cfg (probes w) n /\
     exists context' w',
       m context w = (Returned context', w') /\
       probes w' = (probes w + n)%nat /\
       (length context <= length context')%nat /\
       (unread = true -> context' = context))
    \/
    (trips cfg (probes w) n /\
     exists w', m context w = (Thrown memoryLimitExceeded, w')).

(** The node [gatherFiles] returns for the directory [src] of
    [sampleRoot] below [/r]. *)
Definition sampleSrcNode : FileNode :=
  mkFileNode (lit "src") (lit "/r/src") 4096 true
    [mkFileNode (lit "a.ts") (lit "/r/src/a.ts") 1536 false []].

(* ------------------------------------------------------------------ *)
(** ** The constructor *)

(** The argument of the constructor ([Config], [src/types.ts]): every field
    may be left out.  ([enableTokenCounting] is declared but never read.) *)
Record ConfigInput := mkConfigInput {
  in_directory : option jsstring;
  in_relevantExtensions : option (list jsstring);
  in_maxFileSize : option Z;
  in_maxTokens : option Z;
  in_ignorePatterns : option (list jsstring);
  in_ignoreFilesWithNoExtension : option bool;
  in_memoryLimitMB : option Z
}.

(** A default of the destructuring pattern: taken when the field is left
    out. *)
Definition orDefault {A : Type} (field : option A) (default : A) : A :=
  match field with
  | Some value => value
  | None => default
  end.

Definition emptyDirectory : exn := Error (lit "directory must not be empty.").

(** [new CodebaseAnalyzer(config)]: the configuration stored in the
    instance, or the error thrown.  [resolve] is [path.resolve]. *)
Definition constructor (resolve : jsstring -> jsstring) (config : ConfigInput)
  : outcome Config :=
  let directory := orDefault (in_directory config) (lit ".") in
  let relevantExtensions :=
    orDefault (in_relevantExtensions config) defaultExtensions in
  let maxFileSize := orDefault (in_maxFileSize config) 100000 in
  let maxTokens := orDefault (in_maxTokens config) 100000 in
  let ignorePatterns :=
    orDefault (in_ignorePatterns config) defaultIgnorePatterns in
  let ignoreFilesWithNoExtension :=
    orDefault (in_ignoreFilesWithNoExtension config) true in
  let memoryLimitMB := orDefault (in_memoryLimitMB config) 64 in
  if jsstring_eqb (trim directory) []
  then Thrown emptyDirectory
  else Returned
         (mkConfig (resolve directory) relevantExtensions maxFileSize
            maxTokens ignorePatterns ignoreFilesWithNoExtension
            memoryLimitMB).

(** ** Views of a tree and of the file system used in statements *)

(** The file nodes of a tree, in the order of a depth-first walk. *)
Fixpoint filesOf_node (node : FileNode) : list FileNode :=
  match node with
  | mkFileNode _ _ _ isDir ch =>
      if isDir
      then (fix walk (nodes : list FileNode) : list FileNode :=
              match nodes with
              | [] => []
              | n :: rest => filesOf_node n ++ walk rest
              end) ch
      else [node]
  end.

Fixpoint filesOf (nodes : list FileNode) : list FileNode :=
  match nodes with
  | [] => []
  | n :: rest => filesOf_node n ++ filesOf rest
  end.

(** The sizes of the file nodes of a tree, summed. *)
Definition treeSize (nodes : list FileNode) : Z :=
  fold_right (fun node acc => size node + acc) 0 (filesOf nodes).

(** [sub] is [full] with some elements left out, the order kept. *)
Inductive subsequence {A : Type} : list A -> list A -> Prop :=
| subsequence_nil : subsequence [] []
| subsequence_skip (x : A) (sub full : list A) :
    subsequence sub full -> subsequence sub (x :: full)
| subsequence_keep (x : A) (sub full : list A) :
    subsequence sub full -> subsequence (x :: sub) (x :: full).

(** [stat] succeeds on every entry, at any depth. *)
Fixpoint statSucceeds (e : fsentry) : bool :=
  match e with
  | FsFile _ _ _ => true
  | FsDir _ _ None => true
  | FsDir _ _ (Some items) =>
      (fix all (items : list fsentry) : bool :=
         match items with
         | [] => true
         | x :: rest => statSucceeds x && all rest
         end) items
  | FsBroken _ => false
  end.

Definition statSucceedsAll (listing : option (list fsentry)) : bool :=
  match listing with
  | None => true
  | Some items => forallb statSucceeds items
  end.

(** The number of pieces kept by [tokens.slice(0, maxTokens)] for an array
    of [n] pieces. *)
Definition keptTokens (maxTokens n : Z) : Z :=
  if maxTokens <? 0 then Z.max (n + maxTokens) 0 else Z.min maxTokens n.

(** The node of a callback's result, if any. *)
Definition optionNodes (o : option FileNode) : list FileNode :=
  match o with
  | Some node => [node]
  | None => []
  end.

(** What a file node returned by the crawler satisfies under [cfg]. *)
Definition relevantLeaf (cfg : Config) (node : FileNode) : Prop :=
  isDirectory node = false /\ children node = [] /\
  size node <= maxFileSize cfg /\
  (exists ext, In ext (relevantExtensions cfg) /\
               endsWith (path node) ext = true) /\
  (ignoreFilesWithNoExtension cfg = true -> hasExtension (path node) = true).

Section CrawlerViews.

Context {host : Host}.

(** The path of a node is the path of the directory it lies in joined with
    its name, and so on below it. *)
Fixpoint wellPathed (dir : jsstring) (node : FileNode) : Prop :=
  match node with
  | mkFileNode nm p _ _ ch =>
      p = path_join dir nm /\
      (fix all (nodes : list FileNode) : Prop :=
         match nodes with
         | [] => True
         | n :: rest => wellPathed p n /\ all rest
         end) ch
  end.

(** With the property [Q] of a node, relative to the directory it lies in:
    the property of a callback's result. *)
Definition resultHas (Q : jsstring -> FileNode -> Prop) (dir : jsstring)
  (r : outcome (option FileNode)) : Prop :=
  match r with
  | Returned (Some node) => Q dir node
  | _ => True
  end.

(** The blocks of the files of a tree that can be read, in the order of a
    depth-first walk. *)
Definition blocksOf (nodes : list FileNode) : list jsstring :=
  flat_map (fun node => match readFile (path node) with
                        | Some content => [fileBlock node content]
                        | None => []
                        end) (filesOf nodes).

End CrawlerViews.

Definition addProcessed (k : nat) (s : AnalyzerState) : AnalyzerState :=
  mkState (processedFiles s + Z.of_nat k) (totalFiles s) (totalSize s).

(** A stretch of the assembly that makes [n] heap probes, all within the
    limit, pushes exactly [blocks] and counts them. *)
Definition assemblyExact {host : Host} (cfg : Config) (n : nat)
  (blocks : list jsstring) (m : list jsstring -> M (list jsstring)) : Prop :=
  forall context w,
    withinLimit cfg (probes w) n ->
    m context w
    = (Returned (context ++ blocks),
       mkWorld (addProcessed (length blocks) (counters w))
         (probes w + n)%nat).

(** File contents for examples: one file below [/r] can be read. *)
Definition sampleFiles (p : jsstring) : option jsstring :=
  if jsstring_eqb p (lit "/r/src/a.ts") then Some (lit "let x = 1;")
  else None.

(* ================================================================== *)
(** * Properties *)

(** ** Splitting on white space *)

Definition noSpace (t : jsstring) : Prop :=
  forallb (fun c => negb (is_space c)) t = true.

Definition nonEmpty (t : jsstring) : Prop := t <> [].

Lemma noSpace_app (a b : jsstring) :
  noSpace a -> noSpace b -> noSpace (a ++ b).
Proof.
  unfold noSpace. intros Ha Hb. rewrite forallb_app, Ha, Hb. reflexivity.
Qed.

(** A piece that holds no white space is read through without a cut. *)
Lemma split_ws_from_word (t : jsstring) :
  noSpace t ->
  forall piece b rest,
    t <> [] \/ b = false ->
    split_ws_from piece b (t ++ rest) = split_ws_from (piece ++ t) false rest.
Proof.
  unfold noSpace. induction t as [|c t IH]; intros Ht piece b rest Hb.
  - destruct Hb as [Hb|Hb]; [congruence|]. subst b.
    rewrite app_nil_r. reflexivity.
  - simpl in Ht. apply andb_true_iff in Ht. destruct Ht as [Hc Ht].
    apply negb_true_iff in Hc. simpl. rewrite Hc.
    rewrite (IH Ht (piece ++ [c]) false rest (or_intror eq_refl)).
    rewrite <- app_assoc. reflexivity.
Qed.

(** The first piece of a split extends the piece collected so far. *)
Lemma split_ws_from_head (s : jsstring) :
  forall piece b, exists t ts,
    split_ws_from piece b s = (piece ++ t) :: ts.
Proof.
  induction s as [|c s IH]; intros piece b; simpl.
  - exists [], []. rewrite app_nil_r. reflexivity.
  - destruct (is_space c).
    + destruct b.
      * apply IH.
      * exists [], (split_ws_from [] true s). rewrite app_nil_r. reflexivity.
    + destruct (IH (piece ++ [c]) false) as (t & ts & E).
      exists (c :: t), ts. rewrite E, <- app_assoc. reflexivity.
Qed.

(** Every piece but the last is non-empty. *)
Definition innerNonEmpty (l : list jsstring) : Prop :=
  Forall nonEmpty (removelast l).

Lemma innerNonEmpty_cons (t : jsstring) (l : list jsstring) :
  nonEmpty t -> innerNonEmpty l -> innerNonEmpty (t :: l).
Proof.
  unfold innerNonEmpty. intros Ht Hl. destruct l as [|u l].
  - constructor.
  - change (removelast (t :: u :: l)) with (t :: removelast (u :: l)).
    constructor; assumption.
Qed.

(** The shape of a split: no piece holds white space; only the first and the
    last piece can be empty (and inside a run the first cannot either). *)
Lemma split_ws_from_shape (s : jsstring) :
  forall piece b,
    noSpace piece ->
    Forall noSpace (split_ws_from piece b s) /\
    innerNonEmpty (tl (split_ws_from piece b s)) /\
    (nonEmpty piece \/ b = true -> innerNonEmpty (split_ws_from piece b s)).
Proof.
  induction s as [|c s IH]; intros piece b Hp; simpl.
  - repeat split.
    + constructor; [assumption|constructor].
    + constructor.
    + intros _. constructor.
  - destruct (is_space c) eqn:Hc.
    + destruct b.
      * destruct (IH piece true Hp) as (F & I1 & I2).
        repeat split; assumption.
      * destruct (IH [] true eq_refl) as (F & I1 & I2).
        repeat split.
        -- constructor; assumption.
        -- simpl. apply I2. right; reflexivity.
        -- intros [Hne|Hb]; [|discriminate].
           apply innerNonEmpty_cons; [assumption|].
           apply I2. right; reflexivity.
    + assert (Hp' : noSpace (piece ++ [c])).
      { apply noSpace_app; [assumption|]. unfold noSpace. simpl.
        rewrite Hc. reflexivity. }
      destruct (IH (piece ++ [c]) false Hp') as (F & I1 & I2).
      repeat split; try assumption. intros _. apply I2. left.
      unfold nonEmpty. destruct piece; discriminate.
Qed.

(** Joining pieces with one space and splitting again gives the pieces
    back, provided no piece holds white space and only the first is empty. *)
Lemma split_ws_join (t : jsstring) (ts : list jsstring) :
  noSpace t -> Forall noSpace ts -> Forall nonEmpty ts ->
  forall piece,
    split_ws_from piece false (join (lit " ") (t :: ts)) = (piece ++ t) :: ts.
Proof.
  revert t. induction ts as [|u ts IH]; intros t Ht Hs Hn piece.
  - simpl. rewrite <- (app_nil_r t) at 1.
    rewrite (split_ws_from_word t Ht piece false [] (or_intror eq_refl)).
    reflexivity.
  - change (join (lit " ") (t :: u :: ts))
      with (t ++ lit " " ++ join (lit " ") (u :: ts)).
    rewrite (split_ws_from_word t Ht piece false _ (or_intror eq_refl)).
    inversion Hs as [|? ? Hu Hs']; subst. inversion Hn as [|? ? Nu Hn']; subst.
    change (lit " " ++ join (lit " ") (u :: ts))
      with (32%N :: join (lit " ") (u :: ts)).
    cbn [split_ws_from]. change (is_space 32) with true. cbv iota.
    f_equal.
    destruct u as [|c u]; [exfalso; apply Nu; reflexivity|].
    assert (Hc : is_space c = false).
    { unfold noSpace in Hu. simpl in Hu. apply andb_true_iff in Hu.
      destruct Hu as [Hu _]. apply negb_true_iff in Hu. exact Hu. }
    assert (E : forall r, split_ws_from [] true (c :: r)
                          = split_ws_from [] false (c :: r)).
    { intros r. simpl. rewrite Hc. reflexivity. }
    destruct ts as [|v ts].
    + simpl join. rewrite E. apply (IH (c :: u) Hu Hs' Hn' []).
    + change (join (lit " ") ((c :: u) :: v :: ts))
        with (c :: (u ++ lit " " ++ join (lit " ") (v :: ts))).
      rewrite E.
      change (c :: (u ++ lit " " ++ join (lit " ") (v :: ts)))
        with (join (lit " ") ((c :: u) :: v :: ts)).
      apply (IH (c :: u) Hu Hs' Hn' []).
Qed.

Lemma Forall_firstn_of {A : Type} (P : A -> Prop) (n : nat) (l : list A) :
  Forall P l -> Forall P (firstn n l).
Proof.
  revert n. induction l as [|x l IH]; intros [|n] H; simpl;
    try constructor; inversion H; subst; auto.
Qed.

(** The first [k] pieces of a split, for [1 <= k < length], survive a join
    with single spaces followed by a new split. *)
Lemma split_ws_join_prefix (context : jsstring) (k : nat) :
  (1 <= k)%nat -> (k < length (split_ws context))%nat ->
  split_ws (join (lit " ") (firstn k (split_ws context)))
    = firstn k (split_ws context).
Proof.
  intros Hk Hlen. unfold split_ws in *.
  destruct (split_ws_from_shape context [] false eq_refl) as (F & I & _).
  destruct (split_ws_from [] false context) as [|t ts] eqn:E;
    [simpl in Hlen; lia|].
  destruct k as [|k]; [lia|]. simpl in Hlen. simpl firstn.
  inversion F as [|? ? Ft Fts]; subst. simpl in I.
  rewrite (split_ws_join t (firstn k ts)).
  - reflexivity.
  - assumption.
  - apply Forall_firstn_of. assumption.
  - rewrite <- firstn_removelast by lia.
    apply Forall_firstn_of. exact I.
Qed.

(** ** ContextTruncator *)

(** C10. Within the budget (token count at most [maxTokens]) the truncator
    returns its input unchanged, white space and formatting included. *)
Theorem truncateContext_within_budget (cfg : Config) (context : jsstring) :
  tokenCount context <= maxTokens cfg ->
  truncateContext cfg context = context.
Proof.
  unfold truncateContext, tokenCount. intros H.
  destruct (Z.ltb_spec (maxTokens cfg) (Z.of_nat (length (split_ws context))));
    [lia|reflexivity].
Qed.

Lemma truncateContext_within_budget_witness :
  tokenCount (lit "a  b") <= maxTokens (defaultConfig (lit "/r")) /\
  truncateContext (defaultConfig (lit "/r")) (lit "a  b") = lit "a  b".
Proof.
  split.
  - vm_compute. discriminate.
  - apply truncateContext_within_budget. vm_compute. discriminate.
Defined.

(** C1, as the code has it.  For a budget of at least one token and a text
    whose token count exceeds it, the result is the first [maxTokens] pieces
    of the split joined by single spaces, and splitting the result gives
    exactly these [maxTokens] pieces again. *)
Theorem truncateContext_over_budget (cfg : Config) (context : jsstring) :
  1 <= maxTokens cfg ->
  maxTokens cfg < tokenCount context ->
  truncateContext cfg context
    = join (lit " ") (firstn (Z.to_nat (maxTokens cfg)) (split_ws context)) /\
  split_ws (truncateContext cfg context)
    = firstn (Z.to_nat (maxTokens cfg)) (split_ws context) /\
  tokenCount (truncateContext cfg context) = maxTokens cfg.
Proof.
  unfold tokenCount. intros H1 Hgt.
  assert (E : truncateContext cfg context
    = join (lit " ") (firstn (Z.to_nat (maxTokens cfg)) (split_ws context))).
  { unfold truncateContext, slice0.
    destruct (Z.ltb_spec (maxTokens cfg) (Z.of_nat (length (split_ws context))));
      [|lia].
    destruct (Z.ltb_spec (maxTokens cfg) 0); [lia|].
    rewrite Z.min_l by lia. reflexivity. }
  assert (S : split_ws (truncateContext cfg context)
    = firstn (Z.to_nat (maxTokens cfg)) (split_ws context)).
  { rewrite E. apply split_ws_join_prefix; lia. }
  split; [exact E|]. split; [exact S|].
  rewrite S, length_firstn. lia.
Qed.

Lemma truncateContext_over_budget_witness :
  tokenCount
    (truncateContext
       (mkConfig (lit "/r") defaultExtensions 100000 2 defaultIgnorePatterns
          true 64)
       (lit " a   b c")) = 2.
Proof.
  apply (truncateContext_over_budget
           (mkConfig (lit "/r") defaultExtensions 100000 2
              defaultIgnorePatterns true 64) (lit " a   b c")).
  - simpl. lia.
  - vm_compute. reflexivity.
Defined.

(** C1 as stated fails for a budget of zero: every text exceeds it, the
    result is the empty string, and the empty string splits into one (empty)
    piece, not zero. *)
Lemma truncateContext_zero_budget_counterexample :
  let cfg := mkConfig (lit "/r") defaultExtensions 100000 0
               defaultIgnorePatterns true 64 in
  maxTokens cfg < tokenCount (lit "a b") /\
  truncateContext cfg (lit "a b") = [] /\
  tokenCount (truncateContext cfg (lit "a b")) <> maxTokens cfg.
Proof.
  vm_compute. repeat split; discriminate.
Qed.

(** ** [path.extname] and [hasExtension] *)

Example extname_index_ts : extname (lit "a/b.ts") = lit ".ts".
Proof. reflexivity. Qed.
Example extname_dirs : extname (lit "x.d/y.tar.gz//") = lit ".gz".
Proof. reflexivity. Qed.
Example extname_trailing_dot : extname (lit "index.") = lit ".".
Proof. reflexivity. Qed.
Example extname_dotfile : extname (lit ".index") = [].
Proof. reflexivity. Qed.
Example extname_dotfile_md : extname (lit ".index.md") = lit ".md".
Proof. reflexivity. Qed.
Example extname_dotdot : extname (lit "a/..") = [].
Proof. reflexivity. Qed.

Lemma takeWhile_dropWhile {A : Type} (p : A -> bool) (l : list A) :
  l = takeWhile p l ++ dropWhile p l.
Proof.
  induction l as [|x l IH]; simpl; [reflexivity|].
  destruct (p x); simpl; congruence.
Qed.

Lemma takeWhile_all {A : Type} (p : A -> bool) (l : list A) :
  forallb p (takeWhile p l) = true.
Proof.
  induction l as [|x l IH]; simpl; [reflexivity|].
  destruct (p x) eqn:E; simpl; [rewrite E; exact IH|reflexivity].
Qed.

Lemma dropWhile_head {A : Type} (p : A -> bool) (l : list A) :
  dropWhile p l = [] \/
  exists x r, dropWhile p l = x :: r /\ p x = false.
Proof.
  induction l as [|x l IH]; simpl; [left; reflexivity|].
  destruct (p x) eqn:E; [exact IH|right; exists x, l; auto].
Qed.

(** Trailing separators leave the loop's variables untouched. *)
Lemma extname_loop_slashes (sl rest : list N) :
  forallb isSlash sl = true ->
  forall i sd sp e pd,
    extname_loop (sl ++ rest) i (mkExtState sd sp e true pd)
    = extname_loop rest (i - Z.of_nat (length sl)) (mkExtState sd sp e true pd).
Proof.
  induction sl as [|c sl IH]; intros H i sd sp e pd.
  - simpl. f_equal. lia.
  - simpl in H. apply andb_true_iff in H. destruct H as [Hc H].
    cbn [app extname_loop]. rewrite Hc. cbn [matchedSlash negb].
    rewrite IH by assumption. f_equal. cbn [length]. lia.
Qed.

(** The first code unit of the component fixes the end of the extension. *)
Lemma extname_loop_enter (c : N) (more : list N) (i : Z) :
  isSlash c = false -> 0 <= i ->
  forall sd sp ms pd,
    extname_loop (c :: more) i (mkExtState sd sp (-1) ms pd)
    = extname_loop (c :: more) i (mkExtState sd sp (i + 1) false pd).
Proof.
  intros Hc Hi sd sp ms pd. cbn [extname_loop]. rewrite Hc.
  cbn [endPos]. rewrite Z.eqb_refl.
  destruct (Z.eqb_spec (i + 1) (-1)); [lia|]. reflexivity.
Qed.


(** Code units to the right of the last dot change nothing more. *)
Lemma extname_loop_plain (nd rest : list N) :
  forallb plainCode nd = true ->
  forall i sp e pd, e <> -1 ->
    extname_loop (nd ++ rest) i (mkExtState (-1) sp e false pd)
    = extname_loop rest (i - Z.of_nat (length nd))
        (mkExtState (-1) sp e false pd).
Proof.
  induction nd as [|c nd IH]; intros H i sp e pd He.
  - simpl. f_equal. lia.
  - simpl in H. apply andb_true_iff in H. destruct H as [Hc H].
    unfold plainCode in Hc. apply andb_true_iff in Hc. destruct Hc as [Hs Hd].
    apply negb_true_iff in Hs, Hd.
    cbn [app extname_loop]. rewrite Hs, Hd. cbn [endPos startDot].
    destruct (Z.eqb_spec e (-1)); [contradiction|].
    cbn [startDot]. rewrite Z.eqb_refl. cbn [negb].
    rewrite IH by assumption. f_equal. cbn [length]. lia.
Qed.

(** The right-most dot of the component starts the extension. *)
Lemma extname_loop_dot (c : N) (rest : list N) (i sp e pd : Z) :
  isDot c = true -> isSlash c = false -> e <> -1 ->
  extname_loop (c :: rest) i (mkExtState (-1) sp e false pd)
  = extname_loop rest (i - 1) (mkExtState i sp e false pd).
Proof.
  intros Hd Hs He. cbn [extname_loop]. rewrite Hs, Hd. cbn [endPos].
  destruct (Z.eqb_spec e (-1)); [contradiction|].
  cbn [startDot]. rewrite Z.eqb_refl. reflexivity.
Qed.

Lemma extname_loop_before (bf rest : list N) :
  forallb notSlash bf = true ->
  forall i sd sp e pd, sd <> -1 -> e <> -1 ->
    extname_loop (bf ++ rest) i (mkExtState sd sp e false pd)
    = extname_loop rest (i - Z.of_nat (length bf))
        (mkExtState sd sp e false (preDotAfter bf pd)).
Proof.
  induction bf as [|c bf IH]; intros H i sd sp e pd Hsd He.
  - simpl. f_equal. lia.
  - simpl in H. apply andb_true_iff in H. destruct H as [Hs H].
    apply negb_true_iff in Hs.
    cbn [app extname_loop]. rewrite Hs. cbn [endPos].
    destruct (Z.eqb_spec e (-1)); [contradiction|]. cbn [startDot].
    destruct (Z.eqb_spec sd (-1)); [contradiction|]. cbn [negb preDotState].
    assert (E : forall st', st' = mkExtState sd sp e false
                                (if isDot c then 1 else -1) ->
              extname_loop (bf ++ rest) (i - 1) st'
              = extname_loop rest (i - Z.of_nat (length (c :: bf)))
                  (mkExtState sd sp e false (preDotAfter (c :: bf) pd))).
    { intros st' ->. rewrite IH by assumption. cbn [length preDotAfter fold_left].
      f_equal. lia. }
    apply E. destruct (isDot c).
    + destruct (Z.eqb_spec pd 1); cbn [negb]; [subst; reflexivity|reflexivity].
    + reflexivity.
Qed.

Lemma isDot_not_slash (c : N) : isDot c = true -> isSlash c = false.
Proof.
  unfold isDot, isSlash, DOT, SLASH. intros H. apply N.eqb_eq in H. subst c.
  reflexivity.
Qed.

Lemma extname_loop_stop (tail : list N) (j sd sp e pd : Z) :
  stopsScan tail ->
  extname_loop tail j (mkExtState sd sp e false pd)
  = mkExtState sd (match tail with [] => sp | _ => j + 1 end) e false pd.
Proof.
  intros [->|(c & r & -> & Hc)]; [reflexivity|].
  cbn [extname_loop]. rewrite Hc. reflexivity.
Qed.

(** A component without a dot: [startDot] is still [-1] after the loop. *)
Lemma extname_loop_nodot (cr tail : list N) (i : Z) :
  forallb plainCode cr = true -> cr <> [] -> 0 <= i -> stopsScan tail ->
  startDot (extname_loop (cr ++ tail) i extInit) = -1.
Proof.
  intros Hp Hne Hi Hstop. destruct cr as [|c cr]; [contradiction|].
  assert (Hs : isSlash c = false).
  { simpl in Hp. apply andb_true_iff in Hp. destruct Hp as [Hc _].
    unfold plainCode in Hc. apply andb_true_iff in Hc.
    destruct Hc as [Hc _]. apply negb_true_iff in Hc. exact Hc. }
  unfold extInit. change ((c :: cr) ++ tail) with (c :: (cr ++ tail)).
  rewrite extname_loop_enter by assumption.
  change (c :: (cr ++ tail)) with ((c :: cr) ++ tail).
  rewrite extname_loop_plain by (assumption || lia).
  rewrite extname_loop_stop by assumption. reflexivity.
Qed.

(** A component [nd ++ d :: bf] read right to left, [d] being its right-most
    dot: the variables after the loop. *)
Lemma extname_loop_withdot (nd bf tail : list N) (d : N) (i : Z) :
  forallb plainCode nd = true -> isDot d = true ->
  forallb notSlash bf = true ->
  stopsScan tail ->
  Z.of_nat (length nd + length bf) <= i ->
  (tail = [] -> i = Z.of_nat (length nd + length bf)) ->
  extname_loop (nd ++ d :: bf ++ tail) i extInit
  = mkExtState (i - Z.of_nat (length nd))
      (i - Z.of_nat (length nd + length bf)) (i + 1) false
      (preDotAfter bf 0).
Proof.
  intros Hnd Hd Hbf Hstop Hi Hend.
  assert (Hds := isDot_not_slash d Hd).
  assert (E : extname_loop (nd ++ d :: bf ++ tail) i extInit
            = extname_loop (nd ++ d :: bf ++ tail) i
                (mkExtState (-1) 0 (i + 1) false 0)).
  { unfold extInit. destruct nd as [|c nd].
    - apply extname_loop_enter; [assumption|lia].
    - apply extname_loop_enter; [|lia].
      simpl in Hnd. apply andb_true_iff in Hnd. destruct Hnd as [Hc _].
      unfold plainCode in Hc. apply andb_true_iff in Hc.
      destruct Hc as [Hc _]. apply negb_true_iff in Hc. exact Hc. }
  rewrite E.
  rewrite extname_loop_plain by (assumption || lia).
  rewrite extname_loop_dot by (assumption || lia).
  rewrite extname_loop_before by (assumption || lia).
  rewrite extname_loop_stop by assumption.
  f_equal. destruct tail; [rewrite Hend by reflexivity|]; lia.
Qed.

Lemma preDotAfter_zero (bf : list N) (pd : Z) :
  preDotAfter bf pd = 0 <-> bf = [] /\ pd = 0.
Proof.
  unfold preDotAfter. revert pd. induction bf as [|c bf IH]; intros pd; simpl.
  - intuition congruence.
  - rewrite IH. split; [|intros [? _]; discriminate].
    intros [_ H]. destruct (isDot c); discriminate.
Qed.

Lemma preDotAfter_single (c : N) (pd : Z) :
  preDotAfter [c] pd = 1 <-> isDot c = true.
Proof.
  unfold preDotAfter. simpl. destruct (isDot c); split; congruence.
Qed.


Lemma forallb_dropWhile {A : Type} (p q : A -> bool) (l : list A) :
  forallb p l = true -> forallb p (dropWhile q l) = true.
Proof.
  induction l as [|x l IH]; simpl; [reflexivity|].
  intros H. apply andb_true_iff in H. destruct H as [Hx H].
  destruct (q x); [auto|]. simpl. rewrite Hx. exact H.
Qed.

Lemma forallb_takeWhile {A : Type} (p q : A -> bool) (l : list A) :
  forallb p l = true -> forallb p (takeWhile q l) = true.
Proof.
  induction l as [|x l IH]; simpl; [reflexivity|].
  intros H. apply andb_true_iff in H. destruct H as [Hx H].
  destruct (q x); [|reflexivity]. simpl. rewrite Hx. auto.
Qed.

Lemma plain_no_dot (l : list N) :
  forallb plainCode l = true -> existsb isDot l = false.
Proof.
  induction l as [|c l IH]; simpl; [reflexivity|].
  intros H. apply andb_true_iff in H. destruct H as [Hc H].
  unfold plainCode in Hc. apply andb_true_iff in Hc. destruct Hc as [_ Hc].
  apply negb_true_iff in Hc. rewrite Hc. auto.
Qed.

Lemma existsb_rev {A : Type} (p : A -> bool) (l : list A) :
  existsb p (rev l) = existsb p l.
Proof.
  induction l as [|x l IH]; simpl; [reflexivity|].
  rewrite existsb_app, IH. simpl. rewrite orb_false_r. apply orb_comm.
Qed.

Lemma existsb_tl_false {A : Type} (p : A -> bool) (l : list A) :
  existsb p l = false -> existsb p (tl l) = false.
Proof.
  destruct l as [|x l]; simpl; [auto|]. intros H.
  apply orb_false_iff in H. tauto.
Qed.

Lemma jsstring_eqb_eq (a b : jsstring) : jsstring_eqb a b = true <-> a = b.
Proof.
  unfold jsstring_eqb. destruct (list_eq_dec N.eq_dec a b); split;
    congruence.
Qed.

Lemma jsstring_eqb_neq (a b : jsstring) : jsstring_eqb a b = false <-> a <> b.
Proof.
  unfold jsstring_eqb. destruct (list_eq_dec N.eq_dec a b); split;
    congruence.
Qed.

(** The component scanned by the loop, with what lies on either side of it
    in the reversed path. *)
Lemma rev_path_parts (p : jsstring) :
  exists sl tail,
    rev p = sl ++ rev (basename p) ++ tail /\
    forallb isSlash sl = true /\
    forallb notSlash (rev (basename p)) = true /\
    stopsScan tail /\
    (basename p = [] -> tail = []).
Proof.
  unfold basename. rewrite rev_involutive.
  set (r1 := dropWhile isSlash (rev p)).
  exists (takeWhile isSlash (rev p)), (dropWhile notSlash r1).
  repeat split.
  - rewrite <- (takeWhile_dropWhile notSlash r1).
    apply takeWhile_dropWhile.
  - apply takeWhile_all.
  - apply (takeWhile_all notSlash).
  - destruct (dropWhile_head notSlash r1) as [E|(x & r & E & Hx)].
    + left. exact E.
    + right. exists x, r. split; [exact E|].
      unfold notSlash in Hx. apply negb_false_iff in Hx. exact Hx.
  - intros Hb. apply (f_equal (@rev N)) in Hb. rewrite rev_involutive in Hb.
    simpl in Hb. fold notSlash in Hb.
    destruct (dropWhile_head isSlash (rev p)) as [E|(x & r & E & Hx)];
      fold r1 in E; rewrite E in *; [reflexivity|].
    simpl in Hb. unfold notSlash in Hb at 1. rewrite Hx in Hb. discriminate.
Qed.

(** [hasExtension] decided on the final component. *)
Lemma hasExtension_dotAfterStart (p : jsstring) :
  hasExtension p = dotAfterStart p.
Proof.
  destruct (rev_path_parts p) as (sl & tail & Erev & Hsl & Hcr & Hstop & Hnil).
  assert (Hlen : length p = (length sl + (length (basename p) + length tail))%nat).
  { rewrite <- (length_rev p), Erev, !length_app, length_rev. reflexivity. }
  set (i := Z.of_nat (length p) - 1 - Z.of_nat (length sl)).
  set (cr := rev (basename p)) in *.
  assert (Est0 : extname_loop (rev p) (Z.of_nat (length p) - 1) extInit
                 = extname_loop (cr ++ tail) i extInit).
  { rewrite Erev. unfold extInit.
    rewrite extname_loop_slashes by assumption. reflexivity. }
  unfold hasExtension, extname, dotAfterStart. cbv zeta. rewrite Est0.
  clear Est0.
  assert (Hbase : basename p = rev cr) by (unfold cr; rewrite rev_involutive; reflexivity).
  assert (Hcrlen : length cr = length (basename p)) by (unfold cr; apply length_rev).
  destruct cr as [|c0 cr0] eqn:Ecr.
  { (* no component at all *)
    simpl in Hbase. rewrite (Hnil Hbase), Hbase. reflexivity. }
  rewrite <- Ecr in *. assert (Hne : cr <> []) by (rewrite Ecr; discriminate).
  assert (Hi : Z.of_nat (length cr) - 1 <= i) by (unfold i; lia).
  assert (Hiend : tail = [] -> i = Z.of_nat (length cr) - 1).
  { intros ->. unfold i. simpl in Hlen. lia. }
  assert (Hcr1 : (1 <= length cr)%nat)
    by (destruct cr; [contradiction|simpl; lia]).
  pose proof (takeWhile_dropWhile plainCode cr) as Esplit.
  pose proof (takeWhile_all plainCode cr) as Hnd.
  set (nd := takeWhile plainCode cr) in *.
  destruct (dropWhile_head plainCode cr) as [E|(d & bf & E & Hd)];
    rewrite E in Esplit.
  { (* no dot in the component *)
    rewrite app_nil_r in Esplit.
    assert (Hplain : forallb plainCode cr = true) by (rewrite Esplit; exact Hnd).
    unfold extname_none.
    rewrite extname_loop_nodot by (assumption || lia). simpl.
    rewrite Hbase.
    rewrite existsb_tl_false; [reflexivity|].
    rewrite existsb_rev. apply plain_no_dot. exact Hplain. }
  (* the right-most dot is [d] *)
  assert (Hbf : forallb notSlash bf = true).
  { pose proof (forallb_dropWhile notSlash plainCode cr Hcr) as H.
    rewrite E in H. simpl in H. apply andb_true_iff in H. tauto. }
  assert (Hdot : isDot d = true).
  { pose proof (forallb_dropWhile notSlash plainCode cr Hcr) as H.
    rewrite E in H. simpl in H. apply andb_true_iff in H. destruct H as [H _].
    unfold plainCode in Hd. unfold notSlash in H. rewrite H in Hd.
    simpl in Hd. apply negb_false_iff in Hd. exact Hd. }
  assert (Hcrl : length cr = (length nd + S (length bf))%nat).
  { rewrite Esplit at 1. rewrite length_app. reflexivity. }
  assert (Est : extname_loop (cr ++ tail) i extInit
                = mkExtState (i - Z.of_nat (length nd))
                    (i - Z.of_nat (length nd + length bf)) (i + 1) false
                    (preDotAfter bf 0)).
  { rewrite Esplit at 1. rewrite <- app_assoc.
    change ((d :: bf) ++ tail) with (d :: bf ++ tail).
    apply extname_loop_withdot; try assumption; try lia.
    intros Ht; specialize (Hiend Ht); lia. }
  rewrite Est. clear Est.
  unfold extname_none. cbn [startDot endPos preDotState startPart].
  assert (Hb2 : basename p = rev bf ++ d :: rev nd).
  { rewrite Hbase, Esplit, rev_app_distr. simpl. rewrite <- app_assoc.
    reflexivity. }
  destruct (Z.eqb_spec (i - Z.of_nat (length nd)) (-1)); [lia|].
  destruct (Z.eqb_spec (i + 1) (-1)); [lia|]. cbn [orb].
  destruct bf as [|b bf'].
  { (* the dot opens the component *)
    change (preDotAfter [] 0) with 0. simpl.
    rewrite Hb2. simpl. rewrite existsb_rev, plain_no_dot by assumption.
    reflexivity. }
  assert (Hpd : preDotAfter (b :: bf') 0 <> 0).
  { intros H. apply preDotAfter_zero in H. destruct H; discriminate. }
  destruct (Z.eqb_spec (preDotAfter (b :: bf') 0) 0); [contradiction|].
  cbn [orb].
  assert (Hex : existsb isDot (tl (basename p)) = true).
  { rewrite Hb2. simpl rev. destruct (rev bf') as [|x r']; simpl.
    - rewrite Hdot. reflexivity.
    - rewrite !existsb_app. simpl. rewrite Hdot.
      rewrite !orb_true_r. reflexivity. }
  rewrite Hex. cbn [andb].
  set (none := (preDotAfter (b :: bf') 0 =? 1) &&
               (i - Z.of_nat (length nd) =? i + 1 - 1) &&
               (i - Z.of_nat (length nd)
                =? i - Z.of_nat (length nd + length (b :: bf')) + 1)).
  assert (Hnone : none = jsstring_eqb (basename p) (lit "..")).
  { unfold none. destruct nd as [|x nd']; [destruct bf' as [|y bf'']|].
    - (* component of two code units, the second a dot *)
      replace (i - Z.of_nat (length (@nil N)) =? i + 1 - 1)
        with true by (symmetry; apply Z.eqb_eq; simpl length; lia).
      replace (i - Z.of_nat (length (@nil N))
               =? i - Z.of_nat (length (@nil N) + length [b]) + 1)
        with true by (symmetry; apply Z.eqb_eq; simpl length; lia).
      rewrite !andb_true_r.
      rewrite Hb2. simpl. unfold isDot in Hdot. apply N.eqb_eq in Hdot.
      subst d. unfold preDotAfter. simpl. unfold isDot.
      destruct (N.eqb_spec b DOT).
      + subst b. reflexivity.
      + symmetry. apply jsstring_eqb_neq. intros H. inversion H. contradiction.
    - replace (i - Z.of_nat (length (@nil N))
               =? i - Z.of_nat (length (@nil N) + length (b :: y :: bf'')) + 1)
        with false by (symmetry; apply Z.eqb_neq; simpl length; lia).
      rewrite andb_false_r. symmetry. apply jsstring_eqb_neq.
      rewrite Hb2. intros H. apply (f_equal (@length N)) in H.
      rewrite length_app in H. simpl in H. rewrite !length_app in H.
      simpl in H. lia.
    - replace (i - Z.of_nat (length (x :: nd')) =? i + 1 - 1)
        with false by (symmetry; apply Z.eqb_neq; simpl length; lia).
      rewrite andb_false_r. simpl. symmetry. apply jsstring_eqb_neq.
      rewrite Hb2. intros H. apply (f_equal (@length N)) in H.
      rewrite length_app in H. simpl in H. rewrite !length_app in H.
      simpl in H. lia. }
  rewrite Hnone.
  destruct (jsstring_eqb (basename p) (lit "..")); [reflexivity|].
  cbn [negb]. apply negb_true_iff, jsstring_eqb_neq.
  intros H. apply (f_equal (@length N)) in H. unfold str_slice in H.
  rewrite length_firstn, length_skipn in H. simpl in H.
  rewrite Hcrlen in Hcrl. simpl in Hcrl. lia.
Qed.

Lemma existsb_isDot_nth (l : jsstring) :
  existsb isDot l = true <-> exists i, nth_error l i = Some DOT.
Proof.
  rewrite existsb_exists. split.
  - intros (c & Hin & Hc). unfold isDot in Hc. apply N.eqb_eq in Hc. subst c.
    apply In_nth_error in Hin. exact Hin.
  - intros (i & Hi). exists DOT. split.
    + eapply nth_error_In. exact Hi.
    + unfold isDot. apply N.eqb_refl.
Qed.

(** C6, as the code has it.  [hasExtension] holds exactly when the final
    component of the path has a dot at some position other than 0 and is not
    the name [..] (whether anything follows the dot does not matter); so a
    plain name and a dot file have no extension:
    [hasExtension("a/b.ts")] is true, [hasExtension("a/b")] and
    [hasExtension("a/.gitignore")] are false. *)
Theorem hasExtension_characterised :
  (forall p : jsstring,
     hasExtension p = true <->
     (exists i, (1 <= i)%nat /\ nth_error (basename p) i = Some DOT) /\
     basename p <> lit "..") /\
  hasExtension (lit "a/b.ts") = true /\
  hasExtension (lit "a/b") = false /\
  hasExtension (lit "a/.gitignore") = false.
Proof.
  split; [|repeat split; reflexivity].
  intros p. rewrite hasExtension_dotAfterStart. unfold dotAfterStart.
  rewrite andb_true_iff, negb_true_iff, jsstring_eqb_neq, existsb_isDot_nth.
  split; intros [(i & Hi) Hne]; (split; [|exact Hne]).
  - exists (S i). split; [lia|]. destruct (basename p); [destruct i|];
      simpl in *; try discriminate; exact Hi.
  - destruct Hi as [H1 Hi]. destruct i as [|i]; [lia|]. exists i.
    destruct (basename p); simpl in *; [discriminate|exact Hi].
Qed.

(** C6 as stated fails on a name that ends in a dot: no character follows
    the dot, yet [path.extname] returns ["."] and [hasExtension] is true.
    (Read without "followed by characters", the statement fails on [..],
    which has a dot at position 1 and no extension.) *)
Lemma hasExtension_trailing_dot_counterexample :
  hasExtension (lit "a/b.") = true /\
  spec_hasExtension (lit "a/b.") = false /\
  hasExtension (lit "a/..") = false /\
  nth_error (basename (lit "a/..")) 1 = Some DOT.
Proof.
  repeat split; reflexivity.
Qed.

(** ** [formatSize] *)

Example formatSize_1536 : formatSize 1536 = lit "1.5 KB".
Proof. reflexivity. Qed.
Example formatSize_1023 : formatSize 1023 = lit "1020 bytes".
Proof. reflexivity. Qed.
Example formatSize_999 : formatSize 999 = lit "999 bytes".
Proof. reflexivity. Qed.
Example formatSize_10 : formatSize 10 = lit "10 bytes".
Proof. reflexivity. Qed.
Example formatSize_1234567 : formatSize 1234567 = lit "1.18 MB".
Proof. reflexivity. Qed.
Example formatSize_100000 : formatSize 100000 = lit "97.7 KB".
Proof. reflexivity. Qed.
Example formatSize_petabyte : formatSize (1024 ^ 5) = lit "1 undefined".
Proof. reflexivity. Qed.

(** The unit chosen is the largest power of 1024 not above the size. *)
Lemma log1024_floor_spec (size : Z) :
  0 < size ->
  0 <= log1024_floor size /\
  1024 ^ log1024_floor size <= size < 1024 ^ (log1024_floor size + 1).
Proof.
  intros Hs. unfold log1024_floor.
  pose proof (Z.log2_spec size Hs) as [Hlo Hhi].
  pose proof (Z.log2_nonneg size) as Hnn.
  set (l := Z.log2 size) in *.
  assert (Hq : 0 <= l / 10) by (apply Z.div_pos; lia).
  assert (Hm : 10 * (l / 10) <= l < 10 * (l / 10) + 10).
  { pose proof (Z.div_mod l 10 ltac:(lia)).
    pose proof (Z.mod_pos_bound l 10 ltac:(lia)). lia. }
  split; [exact Hq|].
  change 1024 with (2 ^ 10). rewrite <- !Z.pow_mul_r by lia. split.
  - apply Z.le_trans with (2 ^ l); [|exact Hlo].
    apply Z.pow_le_mono_r; lia.
  - apply Z.lt_le_trans with (2 ^ Z.succ l); [exact Hhi|].
    apply Z.pow_le_mono_r; lia.
Qed.

Lemma div_bounds (a b : Z) : 0 < b -> b * (a / b) <= a < b * (a / b) + b.
Proof.
  intros Hb. pose proof (Z.div_mod a b ltac:(lia)).
  pose proof (Z.mod_pos_bound a b Hb). lia.
Qed.











(** ** The file tree *)

(** Induction on a tree: the property may be assumed of all children. *)
Lemma FileNode_nested_ind (P : FileNode -> Prop) :
  (forall nm p s d ch, Forall P ch -> P (mkFileNode nm p s d ch)) ->
  forall node, P node.
Proof.
  intros H. fix IH 1. intros [nm p s d ch]. apply H.
  induction ch as [|c ch IHch]; constructor; [apply IH|exact IHch].
Qed.

Lemma countNode_eq (node : FileNode) :
  countNode node
  = S (if isDirectory node then countNodes (children node) else O).
Proof.
  destruct node as [nm p s d ch]. destruct d; reflexivity.
Qed.


(** ** TreeRenderer *)

(** The loop body, with the recursive call written as in the source. *)
Lemma buildTreeView_entry_eq (indent : jsstring) (isLastItem : bool)
  (node : FileNode) :
  buildTreeView_entry indent isLastItem node
  = (treeLine indent isLastItem node ++ [LF]) ++
    (if isDirectory node
     then buildTreeView (children node) (childIndent indent isLastItem)
     else []).
Proof.
  destruct node as [nm p s d ch]. simpl. destruct d; [|reflexivity].
  f_equal. unfold buildTreeView.
  generalize (Z.of_nat (length ch)) as len. generalize 0 as index.
  induction ch as [|c ch IH]; intros index len; simpl; [reflexivity|].
  rewrite IH. reflexivity.
Qed.

Lemma spec_nodeLines_eq (indent : jsstring) (isLast : bool) (node : FileNode) :
  spec_nodeLines indent isLast node
  = treeLine indent isLast node ::
    (if isDirectory node
     then spec_treeLines (children node) (childIndent indent isLast)
     else []).
Proof.
  destruct node as [nm p s d ch]. simpl. destruct d; [|reflexivity].
  f_equal. induction ch as [|c ch IH]; simpl; [reflexivity|].
  rewrite IH. reflexivity.
Qed.

Lemma unlines_app (a b : list jsstring) :
  unlines (a ++ b) = unlines a ++ unlines b.
Proof. unfold unlines. rewrite map_app, concat_app. reflexivity. Qed.

(** The index test of the loop finds the last entry. *)
Lemma buildTreeView_loop_lines (nodes : list FileNode) :
  Forall (fun n => forall indent l,
            buildTreeView_entry indent l n = unlines (spec_nodeLines indent l n))
         nodes ->
  forall index len indent,
    index + Z.of_nat (length nodes) = len ->
    buildTreeView_loop nodes index len indent
    = unlines (spec_treeLines nodes indent).
Proof.
  induction 1 as [|n rest Hn Hrest IH]; intros index len indent Hlen.
  - reflexivity.
  - cbn [buildTreeView_loop spec_treeLines]. rewrite unlines_app, Hn.
    rewrite (IH (index + 1) len indent) by (cbn [length] in Hlen; lia).
    f_equal. f_equal. f_equal. destruct rest; cbn [length] in Hlen.
    + apply Z.eqb_eq. lia.
    + apply Z.eqb_neq. lia.
Qed.

Lemma buildTreeView_entry_lines (node : FileNode) :
  forall indent l,
    buildTreeView_entry indent l node = unlines (spec_nodeLines indent l node).
Proof.
  induction node as [nm p s d ch IH] using FileNode_nested_ind.
  intros indent l. rewrite buildTreeView_entry_eq, spec_nodeLines_eq.
  cbn [isDirectory children]. unfold unlines at 1. cbn [map concat].
  fold (unlines (if d then spec_treeLines ch (childIndent indent l) else [])).
  f_equal. destruct d; [|reflexivity].
  unfold buildTreeView. apply buildTreeView_loop_lines; [exact IH|lia].
Qed.

Lemma buildTreeView_lines (nodes : list FileNode) (indent : jsstring) :
  buildTreeView nodes indent = unlines (spec_treeLines nodes indent).
Proof.
  unfold buildTreeView. apply buildTreeView_loop_lines; [|lia].
  apply Forall_forall. intros n _. apply buildTreeView_entry_lines.
Qed.

(** One line per node. *)
Lemma spec_treeLines_length (nodes : list FileNode) :
  forall indent, length (spec_treeLines nodes indent) = countNodes nodes.
Proof.
  assert (Hnode : forall node indent l,
             length (spec_nodeLines indent l node) = countNode node).
  { induction node as [nm p s d ch IH] using FileNode_nested_ind.
    intros indent l. rewrite spec_nodeLines_eq, countNode_eq.
    cbn [isDirectory children length]. f_equal. destruct d; [|reflexivity].
    generalize (childIndent indent l) as ci.
    induction IH as [|c ch Hc Hch IHch]; intros ci; [reflexivity|].
    cbn [spec_treeLines countNodes]. rewrite length_app, Hc, IHch.
    reflexivity. }
  induction nodes as [|n rest IH]; intros indent; [reflexivity|].
  cbn [spec_treeLines countNodes]. rewrite length_app, Hnode, IH.
  reflexivity.
Qed.







Example buildTreeView_sample :
  buildTreeView sampleTree []
  = (CONN_MID ++ lit " " ++ DIR_MARK ++ lit " src" ++ [LF])
    ++ (INDENT_MID ++ CONN_MID ++ lit " " ++ FILE_MARK ++ lit " a.ts 1.5 KB"
          ++ [LF])
    ++ (INDENT_MID ++ CONN_LAST ++ lit " " ++ FILE_MARK ++ lit " b.ts 10 bytes"
          ++ [LF])
    ++ (CONN_LAST ++ lit " " ++ FILE_MARK ++ lit " x.js 0 bytes" ++ [LF]).
Proof. reflexivity. Qed.




(** ** PathFilter: [shouldIgnore] *)

Section PathFilterFacts.

Context {host : Host}.
Variable cfg : Config.

Lemma compilePatterns_valid (sources : list jsstring) :
  (forall source, In source sources -> RegExp source <> None) ->
  exists tests,
    compilePatterns sources = Returned tests /\
    Forall2 (fun source test => RegExp source = Some test) sources tests.
Proof.
  induction sources as [|source rest IH]; intros Hall.
  - exists []. split; [reflexivity|constructor].
  - destruct IH as (tests & E & F).
    { intros x Hx. apply Hall. right. exact Hx. }
    simpl. destruct (RegExp source) as [test|] eqn:Es.
    + exists (test :: tests). rewrite E. split; [reflexivity|].
      constructor; assumption.
    + exfalso. apply (Hall source); [left; reflexivity|exact Es].
Qed.

(** A source that does not compile makes [shouldIgnore] throw, whatever the
    path. *)
Lemma compilePatterns_invalid (sources : list jsstring) :
  (exists source, In source sources /\ RegExp source = None) ->
  exists e, compilePatterns sources = Thrown e.
Proof.
  induction sources as [|source rest IH]; intros (x & Hin & Hx).
  - destruct Hin.
  - simpl. destruct (RegExp source) as [test|] eqn:Es.
    + destruct Hin as [->|Hin]; [congruence|].
      destruct IH as (e & E); [exists x; auto|]. rewrite E. eauto.
    + eauto.
Qed.

Lemma shouldIgnore_invalid_pattern (filePath : jsstring) :
  (exists source, In source (ignorePatterns cfg) /\ RegExp source = None) ->
  exists e, shouldIgnore cfg filePath = Thrown e.
Proof.
  intros H. destruct (compilePatterns_invalid _ H) as (e & E).
  exists e. unfold shouldIgnore. rewrite E. reflexivity.
Qed.

Lemma existsb_compiled (sources : list jsstring)
  (tests : list (jsstring -> bool)) (f : (jsstring -> bool) -> bool) :
  Forall2 (fun source test => RegExp source = Some test) sources tests ->
  (existsb f tests = true <->
   exists source test,
     In source sources /\ RegExp source = Some test /\ f test = true).
Proof.
  induction 1 as [|source test sources tests Hst F IH]; simpl.
  - split; [discriminate|]. intros (s & t & [] & _).
  - rewrite orb_true_iff, IH. split.
    + intros [Hf|(s & t & Hin & Hs & Hf)].
      * exists source, test. auto.
      * exists s, t. auto.
    + intros (s & t & [->|Hin] & Hs & Hf).
      * left. congruence.
      * right. exists s, t. auto.
Qed.

(** C5. With ignore patterns that are regular expressions, [shouldIgnore]
    returns true exactly when the path relative to the root starts with a
    dot or some pattern matches the relative path or the base name; on a
    path that is neither hidden nor matched it returns false. *)
Theorem shouldIgnore_iff (filePath : jsstring) :
  (forall source, In source (ignorePatterns cfg) -> RegExp source <> None) ->
  let relativePath := path_relative (directory cfg) filePath in
  let matched :=
    exists source test,
      In source (ignorePatterns cfg) /\ RegExp source = Some test /\
      (test relativePath = true \/ test (basename filePath) = true) in
  exists b,
    shouldIgnore cfg filePath = Returned b /\
    (b = true <-> startsWith relativePath (lit ".") = true \/ matched) /\
    (startsWith relativePath (lit ".") = false -> ~ matched -> b = false).
Proof.
  intros Hvalid relativePath matched.
  destruct (compilePatterns_valid _ Hvalid) as (tests & E & F).
  unfold shouldIgnore. rewrite E. fold relativePath.
  set (f := fun pattern : jsstring -> bool =>
              pattern relativePath || pattern (basename filePath)).
  assert (Hm : existsb f tests = true <-> matched).
  { rewrite (existsb_compiled _ _ f F). unfold matched, f.
    split; intros (s & t & Hin & Hs & Hf); exists s, t;
      (split; [exact Hin|split; [exact Hs|]]).
    - apply orb_true_iff. exact Hf.
    - apply orb_true_iff. exact Hf. }
  eexists. split; [reflexivity|]. split.
  - rewrite orb_true_iff, Hm. reflexivity.
  - intros Hh Hn. rewrite Hh. cbn [orb].
    destruct (existsb f tests); [|reflexivity].
    exfalso. apply Hn, Hm. reflexivity.
Qed.

End PathFilterFacts.

Lemma defaultIgnorePatterns_compile (source : jsstring) :
  In source defaultIgnorePatterns -> fragmentRegExp source <> None.
Proof.
  unfold defaultIgnorePatterns. cbn [map In].
  intros H. repeat (destruct H as [<-|H]; [vm_compute; discriminate|]).
  destruct H.
Qed.

Lemma shouldIgnore_iff_witness :
  @shouldIgnore (sampleHost 0 (fun _ => None)) (defaultConfig (lit "/r"))
    (lit "/r/src/index.ts") = Returned false.
Proof.
  destruct (@shouldIgnore_iff (sampleHost 0 (fun _ => None))
              (defaultConfig (lit "/r")) (lit "/r/src/index.ts")
              defaultIgnorePatterns_compile) as (b & E & _ & Hfalse).
  rewrite E. f_equal. apply Hfalse.
  - reflexivity.
  - intros (source & test & Hin & Hs & Hm).
    cbn [ignorePatterns defaultConfig] in Hin.
    unfold defaultIgnorePatterns in Hin. cbn [map In] in Hin.
    repeat (destruct Hin as [<-|Hin];
            [vm_compute in Hs; injection Hs as <-;
             vm_compute in Hm; destruct Hm; discriminate|]).
    destruct Hin.
Defined.

(** ** TreeCrawler *)

(** Induction on the file system: the property may be assumed of all the
    entries of a directory that can be listed. *)
Lemma fsentry_nested_ind (P : fsentry -> Prop) :
  (forall item bytes regular, P (FsFile item bytes regular)) ->
  (forall item bytes, P (FsDir item bytes None)) ->
  (forall item bytes items, Forall P items -> P (FsDir item bytes (Some items))) ->
  (forall item, P (FsBroken item)) ->
  forall e, P e.
Proof.
  intros Hf Hn Hd Hb. fix IH 1. intros [item bytes regular|item bytes [items|]|item].
  - apply Hf.
  - apply Hd. induction items as [|x items IHi]; constructor;
      [apply IH|exact IHi].
  - apply Hn.
  - apply Hb.
Qed.

Lemma prunedNode_eq (node : FileNode) :
  prunedNode node
  = (if isDirectory node then negb (Nat.eqb (length (children node)) 0)
     else true)
    && pruned (children node).
Proof. destruct node as [nm p s d ch]. reflexivity. Qed.

Section CrawlerFacts.

Context {host : Host}.
Variable cfg : Config.

(** The callback on a directory, with the recursive call written as in the
    source. *)
Lemma gatherItem_dir (dir item : jsstring) (bytes : Z)
  (listing : option (list fsentry)) (s : AnalyzerState) :
  gatherItem cfg dir (FsDir item bytes listing) s
  = let fullPath := path_join dir item in
    match shouldIgnore cfg fullPath with
    | Thrown ex => (Thrown ex, s)
    | Returned true => (Returned None, s)
    | Returned false =>
        let '(files, s') := gatherFiles cfg fullPath listing s in
        if 0 <? Z.of_nat (length files)
        then (Returned (Some (mkFileNode item fullPath bytes true files)), s')
        else (Returned None, s')
    end.
Proof.
  cbn [gatherItem entryName]. cbv zeta.
  destruct (shouldIgnore cfg (path_join dir item)) as [[|]|ex];
    try reflexivity.
  unfold gatherFiles. destruct listing as [items|]; [|reflexivity].
  match goal with
  | |- (let '(_, _) := (let '(_, _) := ?f items s in _) in _) = _ =>
      assert (E : forall its st,
                 f its st = gatherItems cfg (path_join dir item) its st)
  end.
  { induction its as [|x its IHits]; intros st; [reflexivity|].
    simpl. destruct (gatherItem cfg (path_join dir item) x st) as [r s1].
    rewrite IHits. reflexivity. }
  rewrite E. reflexivity.
Qed.

Lemma collectFiles_pruned (results : list (outcome (option FileNode))) :
  Forall resultPruned results -> pruned (collectFiles results) = true.
Proof.
  unfold collectFiles. destruct (existsb isThrown results); [reflexivity|].
  induction 1 as [|r results Hr _ IH]; [reflexivity|].
  cbn [flat_map]. unfold pruned in *. rewrite forallb_app, IH, andb_true_r.
  destruct r as [[node|]|e]; try reflexivity.
  simpl in *. rewrite Hr. reflexivity.
Qed.

Lemma gatherItems_pruned (items : list fsentry) :
  Forall (fun e => forall dir s, resultPruned (fst (gatherItem cfg dir e s)))
         items ->
  forall dir s, Forall resultPruned (fst (gatherItems cfg dir items s)).
Proof.
  induction 1 as [|x items Hx _ IH]; intros dir s; cbn [gatherItems].
  - constructor.
  - specialize (Hx dir s). destruct (gatherItem cfg dir x s) as [r s1].
    specialize (IH dir s1). destruct (gatherItems cfg dir items s1) as [rs s2].
    constructor; assumption.
Qed.

Lemma gatherItem_pruned (e : fsentry) :
  forall dir s, resultPruned (fst (gatherItem cfg dir e s)).
Proof.
  induction e as [item bytes regular|item bytes|item bytes items IH|item]
    using fsentry_nested_ind; intros dir s.
  - cbn [gatherItem entryName]. cbv zeta.
    destruct (shouldIgnore cfg (path_join dir item)) as [[|]|ex];
      try exact I.
    destruct (isRelevantFile cfg (path_join dir item)
                (FsFile item bytes regular)); [reflexivity|exact I].
  - rewrite gatherItem_dir. cbv zeta.
    destruct (shouldIgnore cfg (path_join dir item)) as [[|]|ex];
      exact I.
  - rewrite gatherItem_dir. cbv zeta.
    destruct (shouldIgnore cfg (path_join dir item)) as [[|]|ex];
      try exact I.
    unfold gatherFiles.
    pose proof (gatherItems_pruned items IH (path_join dir item) s) as Hp.
    destruct (gatherItems cfg (path_join dir item) items s) as [rs s'].
    cbn [fst] in Hp. apply collectFiles_pruned in Hp.
    destruct (collectFiles rs) as [|c files] eqn:Ec; [exact I|].
    cbn [length]. destruct (Z.ltb_spec 0 (Z.of_nat (S (length files))));
      [|lia].
    cbn [fst resultPruned]. rewrite prunedNode_eq.
    cbn [isDirectory children length Nat.eqb negb]. exact Hp.
  - cbn [gatherItem entryName]. cbv zeta.
    destruct (shouldIgnore cfg (path_join dir item)) as [[|]|ex]; exact I.
Qed.

Lemma gatherFiles_pruned (dir : jsstring) (listing : option (list fsentry))
  (s : AnalyzerState) :
  pruned (fst (gatherFiles cfg dir listing s)) = true.
Proof.
  unfold gatherFiles. destruct listing as [items|]; [|reflexivity].
  assert (Hp : Forall resultPruned (fst (gatherItems cfg dir items s))).
  { apply gatherItems_pruned. apply Forall_forall. intros e _.
    apply gatherItem_pruned. }
  destruct (gatherItems cfg dir items s) as [rs s'].
  apply collectFiles_pruned. exact Hp.
Qed.

Lemma pruned_inTree (node : FileNode) (nodes : list FileNode) :
  inTree node nodes -> pruned nodes = true -> prunedNode node = true.
Proof.
  induction 1 as [nodes Hin|parent nodes Hin _ IH]; intros Hp;
    unfold pruned in Hp; rewrite forallb_forall in Hp.
  - apply Hp. exact Hin.
  - apply IH. specialize (Hp parent Hin). rewrite prunedNode_eq in Hp.
    apply andb_true_iff in Hp. tauto.
Qed.

(** C2. No directory node of the result of [gatherFiles], at any depth, has
    an empty sequence of children: a directory of which nothing survives
    is not in the tree. *)
Theorem gatherFiles_no_empty_directory (dir : jsstring)
  (listing : option (list fsentry)) (s : AnalyzerState) (node : FileNode) :
  inTree node (fst (gatherFiles cfg dir listing s)) ->
  isDirectory node = true ->
  children node <> [].
Proof.
  intros Hin Hd.
  pose proof (pruned_inTree node _ Hin (gatherFiles_pruned dir listing s))
    as Hp.
  rewrite prunedNode_eq, Hd in Hp. apply andb_true_iff in Hp.
  destruct Hp as [Hp _]. intros E. rewrite E in Hp. discriminate.
Qed.

Lemma stateAfter_zero (s : AnalyzerState) : stateAfter 0 s = s.
Proof. destruct s. unfold stateAfter. simpl. f_equal. lia. Qed.

Lemma stateAfter_add (a b : Z) (s : AnalyzerState) :
  stateAfter b (stateAfter a s) = stateAfter (a + b) s.
Proof. unfold stateAfter. simpl. f_equal. lia. Qed.

Lemma gatherItems_sameRun (items : list fsentry) :
  Forall (fun e => forall dir, sameRun (gatherItem cfg dir e)) items ->
  forall dir, sameRun (gatherItems cfg dir items).
Proof.
  induction 1 as [|x items Hx _ IH]; intros dir.
  - exists [], 0. intros s. cbn [gatherItems]. rewrite stateAfter_zero.
    reflexivity.
  - destruct (Hx dir) as (r & d1 & E1). destruct (IH dir) as (rs & d2 & E2).
    exists (r :: rs), (d1 + d2). intros s. cbn [gatherItems].
    rewrite E1, E2, stateAfter_add. reflexivity.
Qed.

Lemma gatherFiles_sameRun_of (dir : jsstring) (listing : option (list fsentry)) :
  (forall items, listing = Some items ->
                 sameRun (gatherItems cfg dir items)) ->
  sameRun (gatherFiles cfg dir listing).
Proof.
  intros H. unfold gatherFiles. destruct listing as [items|].
  - destruct (H items eq_refl) as (rs & d & E).
    exists (collectFiles rs), d. intros s. rewrite E. reflexivity.
  - exists [], 0. intros s. rewrite stateAfter_zero. reflexivity.
Qed.

Lemma gatherItem_sameRun (e : fsentry) :
  forall dir, sameRun (gatherItem cfg dir e).
Proof.
  induction e as [item bytes regular|item bytes|item bytes items IH|item]
    using fsentry_nested_ind; intros dir.
  - cbn [gatherItem entryName]. cbv zeta.
    destruct (shouldIgnore cfg (path_join dir item)) as [[|]|ex].
    + exists (Returned None), 0. intros s. rewrite stateAfter_zero. reflexivity.
    + destruct (isRelevantFile cfg (path_join dir item)
                  (FsFile item bytes regular)).
      * eexists _, bytes. intros s. reflexivity.
      * exists (Returned None), 0. intros s. rewrite stateAfter_zero.
        reflexivity.
    + exists (Thrown ex), 0. intros s. rewrite stateAfter_zero. reflexivity.
  - exists (fst (gatherItem cfg dir (FsDir item bytes None) initialState)), 0.
    intros s. rewrite !gatherItem_dir, stateAfter_zero. cbv zeta.
    destruct (shouldIgnore cfg (path_join dir item)) as [[|]|ex]; reflexivity.
  - destruct (gatherFiles_sameRun_of (path_join dir item) (Some items))
      as (files & d & E).
    { intros its Hits. injection Hits as <-. apply gatherItems_sameRun.
      exact IH. }
    destruct (shouldIgnore cfg (path_join dir item)) as [[|]|ex] eqn:Ei.
    + exists (Returned None), 0. intros s.
      rewrite gatherItem_dir, stateAfter_zero. cbv zeta. rewrite Ei.
      reflexivity.
    + exists (if 0 <? Z.of_nat (length files)
              then Returned (Some (mkFileNode item (path_join dir item) bytes
                                     true files))
              else Returned None), d.
      intros s. rewrite gatherItem_dir. cbv zeta. rewrite Ei, E.
      destruct (0 <? Z.of_nat (length files)); reflexivity.
    + exists (Thrown ex), 0. intros s.
      rewrite gatherItem_dir, stateAfter_zero. cbv zeta. rewrite Ei.
      reflexivity.
  - cbn [gatherItem entryName]. cbv zeta.
    destruct (shouldIgnore cfg (path_join dir item)) as [[|]|ex].
    + exists (Returned None), 0. intros s. rewrite stateAfter_zero. reflexivity.
    + eexists _, 0. intros s. rewrite stateAfter_zero. reflexivity.
    + exists (Thrown ex), 0. intros s. rewrite stateAfter_zero. reflexivity.
Qed.

Lemma gatherFiles_sameRun (dir : jsstring) (listing : option (list fsentry)) :
  sameRun (gatherFiles cfg dir listing).
Proof.
  apply gatherFiles_sameRun_of. intros items _. apply gatherItems_sameRun.
  apply Forall_forall. intros e _. apply gatherItem_sameRun.
Qed.


End CrawlerFacts.

(** ** ContextAssembler and the memory guard *)

Lemma noneReadable_node_eq {host : Host} (node : FileNode) :
  noneReadable_node node
  = if isDirectory node then noneReadable (children node)
    else match readFile (path node) with None => true | Some _ => false end.
Proof. destruct node as [nm p s d ch]. reflexivity. Qed.

Lemma countTotalFiles_node_eq (node : FileNode) :
  countTotalFiles_node node
  = if isDirectory node then countTotalFiles (children node) else 1.
Proof. destruct node as [nm p s d ch]. reflexivity. Qed.

Section AssemblerFacts.

Context {host : Host}.
Variable cfg : Config.

(** The loop body, with the recursive call written as in the source: the
    guard closes the visit of every node, directory or file. *)
Lemma processNode_eq (node : FileNode) (context : list jsstring) (w : World) :
  processNode cfg node context w
  = bind (if isDirectory node
          then processFileTree cfg (children node) context
          else readAndPush node context)
         (fun context' =>
            bind (checkMemoryUsage cfg) (fun _ => ret context')) w.
Proof.
  destruct node as [nm p s d ch]. cbn [processNode isDirectory children].
  destruct d; [|reflexivity]. unfold bind at 1 3.
  match goal with
  | |- match ?f ch context w with _ => _ end = _ =>
      assert (E : forall nodes c w0, f nodes c w0
                                     = processFileTree cfg nodes c w0)
  end.
  { induction nodes as [|n rest IH]; intros c w0; [reflexivity|].
    cbn [processFileTree]. unfold bind at 1 3.
    destruct (processNode cfg n c w0) as [[c'|e] w1]; [apply IH|reflexivity]. }
  rewrite E. reflexivity.
Qed.

Lemma withinLimit_add (k n1 n2 : nat) :
  withinLimit cfg k (n1 + n2) <->
  withinLimit cfg k n1 /\ withinLimit cfg (k + n1) n2.
Proof.
  unfold withinLimit. split.
  - intros H. split; intros j Hj.
    + apply H. lia.
    + rewrite <- Nat.add_assoc. apply H. lia.
  - intros [H1 H2] j Hj. destruct (Nat.lt_ge_cases j n1) as [Hlt|Hge].
    + apply H1. exact Hlt.
    + replace (k + j)%nat with (k + n1 + (j - n1))%nat by lia.
      apply H2. lia.
Qed.

Lemma trips_left (k n1 n2 : nat) :
  trips cfg k n1 -> trips cfg k (n1 + n2).
Proof. intros (j & Hj & H). exists j. split; [lia|exact H]. Qed.

Lemma trips_right (k n1 n2 : nat) :
  trips cfg (k + n1) n2 -> trips cfg k (n1 + n2).
Proof.
  intros (j & Hj & H). exists (n1 + j)%nat. split; [lia|].
  rewrite Nat.add_assoc. exact H.
Qed.

Lemma withinLimit_not_trips (k n : nat) :
  withinLimit cfg k n -> trips cfg k n -> False.
Proof. intros Hw (j & Hj & H). specialize (Hw j Hj). lia. Qed.

Lemma assemblyStep_ret : assemblyStep cfg 0 true (fun context => ret context).
Proof.
  intros context w. left. split.
  - intros j Hj. lia.
  - exists context, w. repeat split; auto with arith.
Qed.

Lemma assemblyStep_seq (n1 n2 : nat) (u1 u2 : bool)
  (m1 m2 : list jsstring -> M (list jsstring)) :
  assemblyStep cfg n1 u1 m1 -> assemblyStep cfg n2 u2 m2 ->
  assemblyStep cfg (n1 + n2) (u1 && u2)
    (fun context => bind (m1 context) m2).
Proof.
  intros H1 H2 context w. unfold bind.
  destruct (H1 context w) as [(W1 & c1 & w1 & E1 & P1 & L1 & U1)|(T1 & w1 & E1)].
  - rewrite E1.
    destruct (H2 c1 w1) as [(W2 & c2 & w2 & E2 & P2 & L2 & U2)|(T2 & w2 & E2)].
    + left. split.
      * apply withinLimit_add. rewrite P1 in W2. tauto.
      * exists c2, w2. split; [exact E2|]. split; [lia|]. split; [lia|].
        intros Hu. apply andb_true_iff in Hu. destruct Hu as [Hu1 Hu2].
        rewrite (U2 Hu2). apply U1. exact Hu1.
    + right. split.
      * apply trips_right. rewrite <- P1. exact T2.
      * exists w2. exact E2.
  - right. split; [apply trips_left; exact T1|].
    exists w1. rewrite E1. reflexivity.
Qed.

Lemma assemblyStep_guard :
  assemblyStep cfg 1 true
    (fun context => bind (checkMemoryUsage cfg) (fun _ => ret context)).
Proof.
  intros context w. unfold bind, checkMemoryUsage, ret.
  destruct (Z.ltb_spec (memoryLimitMB cfg * 1048576) (heapUsed (probes w)))
    as [Hover|Hok].
  - right. split.
    + exists O. split; [lia|]. rewrite Nat.add_0_r. exact Hover.
    + eexists. reflexivity.
  - left. split.
    + intros j Hj. replace j with O by lia. rewrite Nat.add_0_r. exact Hok.
    + eexists _, _. split; [reflexivity|]. cbn [probes].
      repeat split; auto with arith; lia.
Qed.

Lemma assemblyStep_read (node : FileNode) :
  assemblyStep cfg 0
    (match readFile (path node) with None => true | Some _ => false end)
    (readAndPush node).
Proof.
  intros context w. left. split; [intros j Hj; lia|].
  unfold readAndPush. destruct (readFile (path node)) as [content|].
  - eexists _, _. split; [reflexivity|]. cbn [probes].
    rewrite length_app. repeat split; try lia; try discriminate.
  - exists context, w. repeat split; auto with arith.
Qed.

Lemma assemblyStep_ext (n n' : nat) (u u' : bool)
  (m m' : list jsstring -> M (list jsstring)) :
  (forall context w, m context w = m' context w) -> n = n' -> u = u' ->
  assemblyStep cfg n u m -> assemblyStep cfg n' u' m'.
Proof.
  intros E <- <- H context w.
  destruct (H context w) as [(W & c & w1 & E1 & R)|(T & w1 & E1)].
  - left. split; [exact W|]. exists c, w1. rewrite <- E. tauto.
  - right. split; [exact T|]. exists w1. rewrite <- E. exact E1.
Qed.

Lemma processFileTree_step_of (nodes : list FileNode) :
  Forall (fun n => assemblyStep cfg (countNode n) (noneReadable_node n)
                     (processNode cfg n)) nodes ->
  assemblyStep cfg (countNodes nodes) (noneReadable nodes)
    (processFileTree cfg nodes).
Proof.
  induction 1 as [|n rest Hn _ IH].
  - exact assemblyStep_ret.
  - exact (assemblyStep_seq _ _ _ _ _ _ Hn IH).
Qed.

Lemma processNode_step (node : FileNode) :
  assemblyStep cfg (countNode node) (noneReadable_node node)
    (processNode cfg node).
Proof.
  induction node as [nm p s d ch IH] using FileNode_nested_ind.
  set (node := mkFileNode nm p s d ch).
  apply (assemblyStep_ext
           ((if d then countNodes ch else O) + 1)
           _ (noneReadable_node node && true) _
           (fun context =>
              bind (if d then processFileTree cfg ch context
                    else readAndPush node context)
                (fun context' =>
                   bind (checkMemoryUsage cfg) (fun _ => ret context')))).
  - intros context w. rewrite processNode_eq. reflexivity.
  - rewrite countNode_eq. cbn [isDirectory children node]. lia.
  - apply andb_true_r.
  - rewrite noneReadable_node_eq. cbn [isDirectory children path node].
    destruct d.
    + apply (assemblyStep_seq _ _ _ _ (processFileTree cfg ch)).
      * apply processFileTree_step_of. exact IH.
      * exact assemblyStep_guard.
    + apply (assemblyStep_seq _ _ _ _ (readAndPush node)).
      * exact (assemblyStep_read node).
      * exact assemblyStep_guard.
Qed.

Lemma processFileTree_step (nodes : list FileNode) :
  assemblyStep cfg (countNodes nodes) (noneReadable nodes)
    (processFileTree cfg nodes).
Proof.
  apply processFileTree_step_of. apply Forall_forall. intros n _.
  apply processNode_step.
Qed.

End AssemblerFacts.

Section AnalyzerFacts.

Context {host : Host}.
Variable cfg : Config.

Lemma gatherContext_eq (fileTree : list FileNode) (w : World) :
  gatherContext cfg fileTree w
  = match processFileTree cfg fileTree []
            (mkWorld (mkState (processedFiles (counters w))
                        (countTotalFiles fileTree) (totalSize (counters w)))
               (probes w)) with
    | (Returned context, w2) =>
        if Nat.eqb (length context) 0 then (Thrown noRelevantFiles, w2)
        else (Returned (join [LF] context), w2)
    | (Thrown e, w2) => (Thrown e, w2)
    end.
Proof.
  unfold gatherContext, bind, setTotalFiles.
  destruct (processFileTree cfg fileTree [] _) as [[context|e] w2];
    [|reflexivity].
  destruct (Nat.eqb (length context) 0); reflexivity.
Qed.

Lemma analyze_eq (rootListing : option (list fsentry)) (w : World) :
  analyze cfg rootListing w
  = let '(fileNode, s1) :=
      gatherFiles cfg (directory cfg) rootListing (counters w) in
    match gatherContext cfg fileNode (mkWorld s1 (probes w)) with
    | (Returned context, w2) =>
        (Returned
           (mkOutput (truncateContext cfg context)
              (countTokens (truncateContext cfg context))
              (buildTreeView fileNode [])
              (mkFileStats (totalSize (counters w2))
                 (totalFiles (counters w2)) (processedFiles (counters w2)))),
         w2)
    | (Thrown e, w2) => (Thrown e, w2)
    end.
Proof.
  unfold analyze, bind at 1, gatherFilesM.
  destruct (gatherFiles cfg (directory cfg) rootListing (counters w))
    as [fileNode s1].
  unfold bind at 1.
  destruct (gatherContext cfg fileNode _) as [[context|e] w2]; reflexivity.
Qed.

(** [gatherContext]: with every probe within the limit it makes one probe
    per node and either returns the joined blocks or, when nothing was
    read, throws "No relevant files found."; with a probe over the limit it
    throws the error of the memory guard. *)
Lemma gatherContext_run (fileTree : list FileNode) (w : World) :
  (withinLimit cfg (probes w) (countNodes fileTree) /\
   probes (snd (gatherContext cfg fileTree w))
   = (probes w + countNodes fileTree)%nat /\
   (noneReadable fileTree = true ->
    fst (gatherContext cfg fileTree w) = Thrown noRelevantFiles))
  \/
  (trips cfg (probes w) (countNodes fileTree) /\
   fst (gatherContext cfg fileTree w) = Thrown memoryLimitExceeded).
Proof.
  rewrite gatherContext_eq.
  set (w1 := mkWorld _ (probes w)).
  change (probes w) with (probes w1).
  destruct (processFileTree_step cfg fileTree [] w1)
    as [(W & c & w2 & E & P & L & U)|(T & w2 & E)]; rewrite E.
  - left. split; [exact W|].
    destruct c as [|b c]; cbn [length Nat.eqb fst snd].
    + split; [exact P|]. intros _. reflexivity.
    + split; [exact P|]. intros Hu. specialize (U Hu). discriminate.
  - right. split; [exact T|reflexivity].
Qed.

Lemma analyze_run (rootListing : option (list fsentry)) (w : World) :
  let fileNode :=
    fst (gatherFiles cfg (directory cfg) rootListing (counters w)) in
  (withinLimit cfg (probes w) (countNodes fileNode) /\
   probes (snd (analyze cfg rootListing w))
   = (probes w + countNodes fileNode)%nat /\
   (noneReadable fileNode = true ->
    fst (analyze cfg rootListing w) = Thrown noRelevantFiles))
  \/
  (trips cfg (probes w) (countNodes fileNode) /\
   fst (analyze cfg rootListing w) = Thrown memoryLimitExceeded).
Proof.
  cbv zeta. rewrite analyze_eq.
  destruct (gatherFiles cfg (directory cfg) rootListing (counters w))
    as [fileNode s1].
  cbn [fst]. set (w1 := mkWorld s1 (probes w)).
  change (probes w) with (probes w1).
  destruct (gatherContext_run fileNode w1) as [(W & P & U)|(T & E)].
  - left. split; [exact W|].
    destruct (gatherContext cfg fileNode w1) as [[context|e] w2];
      cbn [fst snd] in *; (split; [exact P|]); intros Hu; specialize (U Hu).
    + discriminate.
    + injection U as ->. reflexivity.
  - right. split; [exact T|].
    destruct (gatherContext cfg fileNode w1) as [[context|e] w2];
      cbn [fst] in *; [discriminate|].
    injection E as ->. reflexivity.
Qed.

(** A tree that satisfies the pruning invariant holds a file in every node,
    so a tree without files is empty. *)
Lemma pruned_countTotalFiles (nodes : list FileNode) :
  pruned nodes = true -> Z.of_nat (length nodes) <= countTotalFiles nodes.
Proof.
  assert (Hlist : forall ns,
             Forall (fun n => prunedNode n = true ->
                              1 <= countTotalFiles_node n) ns ->
             pruned ns = true ->
             Z.of_nat (length ns) <= countTotalFiles ns).
  { induction 1 as [|n ns Hn _ IH]; intros Hp; [reflexivity|].
    unfold pruned in Hp. cbn [forallb] in Hp. apply andb_true_iff in Hp.
    destruct Hp as [H1 H2]. specialize (Hn H1). specialize (IH H2).
    cbn [length countTotalFiles]. lia. }
  assert (Hnode : forall n, prunedNode n = true ->
                            1 <= countTotalFiles_node n).
  { induction n as [nm p s d ch IH] using FileNode_nested_ind.
    rewrite prunedNode_eq, countTotalFiles_node_eq.
    cbn [isDirectory children]. intros Hp. apply andb_true_iff in Hp.
    destruct Hp as [Hne Hch]. destruct d; [|lia].
    specialize (Hlist ch IH Hch). destruct ch; [discriminate|].
    cbn [length] in Hlist. lia. }
  apply Hlist. apply Forall_forall. intros n _. apply Hnode.
Qed.

Lemma pruned_without_files (nodes : list FileNode) :
  pruned nodes = true -> countTotalFiles nodes = 0 -> nodes = [].
Proof.
  intros Hp H0. pose proof (pruned_countTotalFiles nodes Hp) as H.
  destruct nodes; [reflexivity|]. cbn [length] in H. lia.
Qed.

(** C4. The memory guard closes the visit of every node of the assembly,
    directory or file: a run in which no probe exceeds the limit makes
    exactly one probe per node.  As soon as a probe exceeds
    [memoryLimitMB], the error of the guard leaves [analyze]: the blocks
    assembled so far are gone and no output record is returned. *)
Theorem memory_guard_aborts_analysis (rootListing : option (list fsentry))
  (w : World) :
  let fileNode :=
    fst (gatherFiles cfg (directory cfg) rootListing (counters w)) in
  (forall node context w0,
     processNode cfg node context w0
     = bind (if isDirectory node
             then processFileTree cfg (children node) context
             else readAndPush node context)
            (fun context' =>
               bind (checkMemoryUsage cfg) (fun _ => ret context')) w0) /\
  (withinLimit cfg (probes w) (countNodes fileNode) ->
   probes (snd (analyze cfg rootListing w))
   = (probes w + countNodes fileNode)%nat) /\
  (trips cfg (probes w) (countNodes fileNode) ->
   fst (analyze cfg rootListing w) = Thrown memoryLimitExceeded).
Proof.
  cbv zeta. split; [apply processNode_eq|].
  destruct (analyze_run rootListing w) as [(W & P & _)|(T & E)]; split;
    intros H; try assumption.
  - destruct (withinLimit_not_trips cfg _ _ W H).
  - destruct (withinLimit_not_trips cfg _ _ H T).
Qed.

(** C3, as the code has it.  When no file of the tree can be read,
    [analyze] returns no output record: it throws "No relevant files
    found.", unless a probe of the memory guard exceeded the limit during
    the traversal, in which case it throws the error of the guard.  A tree
    without files (a directory with no relevant file) is empty, no probe is
    made, and the error is always "No relevant files found.". *)
Theorem analyze_without_readable_files (rootListing : option (list fsentry))
  (w : World) :
  let fileNode :=
    fst (gatherFiles cfg (directory cfg) rootListing (counters w)) in
  noneReadable fileNode = true ->
  (exists e, fst (analyze cfg rootListing w) = Thrown e /\
             (e = noRelevantFiles \/ e = memoryLimitExceeded)) /\
  (withinLimit cfg (probes w) (countNodes fileNode) ->
   fst (analyze cfg rootListing w) = Thrown noRelevantFiles) /\
  (countTotalFiles fileNode = 0 ->
   fst (analyze cfg rootListing w) = Thrown noRelevantFiles).
Proof.
  cbv zeta. intros Hu.
  pose proof (gatherFiles_pruned cfg (directory cfg) rootListing (counters w))
    as Hp.
  destruct (analyze_run rootListing w) as [(W & _ & R)|(T & E)].
  - specialize (R Hu). repeat split; try (intros _; exact R).
    exists noRelevantFiles. auto.
  - split; [exists memoryLimitExceeded; auto|]. split.
    + intros W. destruct (withinLimit_not_trips cfg _ _ W T).
    + intros H0. rewrite (pruned_without_files _ Hp H0) in T.
      destruct T as (j & Hj & _). cbn [countNodes] in Hj. lia.
Qed.

End AnalyzerFacts.

Lemma memory_guard_aborts_analysis_witness :
  fst (@analyze (sampleHost 100000000 (fun _ => Some (lit "x")))
         (defaultConfig (lit "/r")) sampleRoot (mkWorld initialState 0))
  = Thrown memoryLimitExceeded.
Proof.
  apply (proj2 (proj2 (@memory_guard_aborts_analysis
                         (sampleHost 100000000 (fun _ => Some (lit "x")))
                         (defaultConfig (lit "/r")) sampleRoot
                         (mkWorld initialState 0)))).
  exists O. split; [vm_compute; lia|]. vm_compute. reflexivity.
Defined.

Lemma analyze_without_readable_files_witness :
  fst (@analyze (sampleHost 1000 (fun _ => None))
         (defaultConfig (lit "/r")) sampleRoot (mkWorld initialState 0))
  = Thrown noRelevantFiles.
Proof.
  assert (U : noneReadable
                (host := sampleHost 1000 (fun _ => None))
                (fst (gatherFiles (host := sampleHost 1000 (fun _ => None))
                        (defaultConfig (lit "/r")) (lit "/r") sampleRoot
                        initialState)) = true)
    by (vm_compute; reflexivity).
  apply (proj1 (proj2 (@analyze_without_readable_files
                         (sampleHost 1000 (fun _ => None))
                         (defaultConfig (lit "/r")) sampleRoot
                         (mkWorld initialState 0) U))).
  intros j _. vm_compute. discriminate.
Defined.

(** C3 as stated fails when the memory guard trips first: with one file in
    the tree that cannot be read and a heap above the limit, the error that
    leaves [analyze] is the one of the guard, not "No relevant files
    found.". *)
Lemma analyze_unreadable_over_limit_counterexample :
  let h := sampleHost 100000000 (fun _ => None) in
  let cfg := defaultConfig (lit "/r") in
  let root := Some [FsFile (lit "a.ts") 10 true] in
  noneReadable (fst (gatherFiles cfg (directory cfg) root initialState))
  = true /\
  fst (@analyze h cfg root (mkWorld initialState 0))
  = Thrown memoryLimitExceeded /\
  fst (@analyze h cfg root (mkWorld initialState 0))
  <> Thrown noRelevantFiles.
Proof.
  vm_compute. repeat split; discriminate.
Qed.

Lemma gatherFiles_no_empty_directory_witness :
  isDirectory sampleSrcNode = true /\ children sampleSrcNode <> [].
Proof.
  split; [reflexivity|].
  apply (@gatherFiles_no_empty_directory (sampleHost 0 (fun _ => None))
           (defaultConfig (lit "/r")) (lit "/r") sampleRoot initialState
           sampleSrcNode).
  - apply inTree_here. vm_compute. left. reflexivity.
  - reflexivity.
Defined.

(** ** The whole analysis on an example *)

(** A root with [a.ts] (content ["x"]) and [node_modules/b.ts]: one file is
    counted and processed, and the context names [a.ts] only. *)
Example analyze_end_to_end :
  let h := sampleHost 1000
             (fun p => if jsstring_eqb p (lit "/root/a.ts")
                       then Some (lit "x") else None) in
  let root := Some [ FsFile (lit "a.ts") 10 true;
                     FsDir (lit "node_modules") 4096
                       (Some [FsFile (lit "b.ts") 10 true]) ] in
  match fst (@analyze h (defaultConfig (lit "/root")) root
               (mkWorld initialState 0)) with
  | Returned output =>
      out_context output
      = lit "File: /root/a.ts (10 bytes)" ++ [LF; LF] ++ lit "x" ++ [LF; LF]
          ++ lit "====================" ++ [LF] /\
      out_treeView output
      = CONN_LAST ++ lit " " ++ FILE_MARK ++ lit " a.ts 10 bytes" ++ [LF] /\
      out_files output = mkFileStats 10 1 1
  | Thrown _ => False
  end.
Proof. vm_compute. repeat split; reflexivity. Qed.

(* ================================================================== *)
(** * Further properties of the code *)

(** ** The constructor *)

Lemma forallb_rev {A : Type} (p : A -> bool) (l : list A) :
  forallb p (rev l) = forallb p l.
Proof.
  induction l as [|x l IH]; simpl; [reflexivity|].
  rewrite forallb_app, IH. simpl. rewrite andb_true_r. apply andb_comm.
Qed.

Lemma trimStart_shape (s : jsstring) :
  (trimStart s = [] /\ forallb is_space s = true) \/
  (exists c t, trimStart s = c :: t /\ is_space c = false /\
               forallb is_space s = false).
Proof.
  induction s as [|c s IH]; simpl; [left; auto|].
  destruct (is_space c) eqn:Hc.
  - exact IH.
  - right. exists c, s. auto.
Qed.

(** [trim] leaves nothing exactly of the strings made of white space. *)
Lemma trim_nil_iff (s : jsstring) :
  trim s = [] <-> forallb is_space s = true.
Proof.
  unfold trim.
  destruct (trimStart_shape s) as [(E & H)|(c & t & E & Hc & H)]; rewrite E.
  - simpl. tauto.
  - rewrite H. split; [|discriminate]. intros Hr.
    apply (f_equal (@rev N)) in Hr. rewrite rev_involutive in Hr.
    change (rev []) with (@nil N) in Hr.
    destruct (trimStart_shape (rev (c :: t))) as [(_ & H2)|(c' & t' & E2 & _)].
    + rewrite forallb_rev in H2. simpl in H2. rewrite Hc in H2. discriminate.
    + rewrite E2 in Hr. discriminate.
Qed.

(** X1. The constructor throws "directory must not be empty." exactly when
    a directory is given that consists of white space only (the empty
    string included); a configuration without directory is accepted, and
    in every other case the instance holds the resolved directory. *)
Theorem constructor_rejects_blank_directory
  (resolve : jsstring -> jsstring) (config : ConfigInput) :
  (constructor resolve config = Thrown emptyDirectory <->
   exists d, in_directory config = Some d /\ forallb is_space d = true) /\
  ((forall cfg, constructor resolve config <> Returned cfg) ->
   constructor resolve config = Thrown emptyDirectory) /\
  (forall cfg, constructor resolve config = Returned cfg ->
     directory cfg = resolve (orDefault (in_directory config) (lit "."))).
Proof.
  unfold constructor.
  set (d := orDefault (in_directory config) (lit ".")).
  destruct (jsstring_eqb (trim d) []) eqn:E.
  - apply jsstring_eqb_eq, trim_nil_iff in E. split; [|split].
    + split; [|reflexivity]. intros _. unfold d in E.
      destruct (in_directory config) as [x|]; [exists x; auto|].
      simpl in E. discriminate.
    + reflexivity.
    + discriminate.
  - apply jsstring_eqb_neq in E. rewrite trim_nil_iff in E. split; [|split].
    + split; [discriminate|]. intros (x & Hx & Hs). exfalso. apply E.
      unfold d. rewrite Hx. exact Hs.
    + intros H. exfalso. eapply H. reflexivity.
    + intros cfg H. injection H as <-. reflexivity.
Qed.

Lemma constructor_rejects_blank_directory_witness :
  constructor (fun p => lit "/cwd/" ++ p)
    (mkConfigInput (Some (lit "src")) None None None None None None)
  <> Thrown emptyDirectory /\
  constructor (fun p => lit "/cwd/" ++ p)
    (mkConfigInput (Some (lit "  ")) None None None None None None)
  = Thrown emptyDirectory.
Proof.
  split.
  - intros H.
    apply (proj1 (constructor_rejects_blank_directory _ _)) in H.
    destruct H as (d & Hd & Hs). injection Hd as <-. discriminate.
  - apply (proj1 (constructor_rejects_blank_directory _ _)).
    exists (lit "  "). split; reflexivity.
Defined.

(** ** PathFilter: [isRelevantFile] *)

Lemma startsWith_prefix (s p : jsstring) :
  startsWith s p = true <-> exists rest, s = p ++ rest.
Proof.
  revert s. induction p as [|c p IH]; intros [|x s]; simpl.
  - split; [eauto|reflexivity].
  - split; [eauto|reflexivity].
  - split; [discriminate|]. intros (r & Hr). discriminate.
  - rewrite andb_true_iff, N.eqb_eq, IH. split.
    + intros [-> (r & ->)]. eauto.
    + intros (r & Hr). injection Hr as -> ->. eauto.
Qed.

Lemma endsWith_suffix (s suffix : jsstring) :
  endsWith s suffix = true <-> exists pre, s = pre ++ suffix.
Proof.
  unfold endsWith. rewrite startsWith_prefix. split.
  - intros (r & Hr). exists (rev r).
    apply (f_equal (@rev N)) in Hr.
    rewrite rev_involutive, rev_app_distr, rev_involutive in Hr. exact Hr.
  - intros (pre & ->). exists (rev pre). apply rev_app_distr.
Qed.

(** X2. A path is relevant exactly when it names a regular file of at most
    [maxFileSize] bytes, some configured extension is a suffix of the whole
    path (the last extension alone need not equal it), and, with
    [ignoreFilesWithNoExtension], its final component has a dot after its
    first character and is not [..].  Directories, other kinds of entries
    and names whose [stat] fails are never relevant. *)
Theorem isRelevantFile_iff (cfg : Config) (filePath : jsstring)
  (e : fsentry) :
  isRelevantFile cfg filePath e = true <->
  (ignoreFilesWithNoExtension cfg = true -> dotAfterStart filePath = true) /\
  (exists item bytes, e = FsFile item bytes true /\ bytes <= maxFileSize cfg)
  /\
  (exists ext pre, In ext (relevantExtensions cfg) /\ filePath = pre ++ ext).
Proof.
  unfold isRelevantFile. rewrite hasExtension_dotAfterStart.
  assert (Hext : existsb (fun ext => endsWith filePath ext)
                   (relevantExtensions cfg) = true <->
                 exists ext pre, In ext (relevantExtensions cfg) /\
                                 filePath = pre ++ ext).
  { rewrite existsb_exists. split.
    - intros (ext & Hin & He). apply endsWith_suffix in He.
      destruct He as (pre & ->). eauto.
    - intros (ext & pre & Hin & ->). exists ext. split; [exact Hin|].
      apply endsWith_suffix. eauto. }
  destruct (ignoreFilesWithNoExtension cfg), (dotAfterStart filePath);
    cbn [andb negb];
    try (split; [discriminate|intros (H & _); specialize (H eq_refl);
                              discriminate]);
    (destruct e as [item bytes regular|item bytes listing|item];
     cbn [stat st_isFile st_size negb];
     [destruct regular; cbn [negb]
     | | ];
     try (split; [discriminate
                 |intros (_ & (i & b & Hfalse & _) & _); discriminate]);
     rewrite andb_true_iff, Hext, Z.leb_le;
     (split;
      [intros [Hs He]; split; [auto|split; [eauto|exact He]]
      |intros (_ & (i & b & Hi & Hb) & He); injection Hi as _ <-; auto])).
Qed.

(** ** ContextTruncator: budgets of every sign *)

Lemma tokenCount_pos (s : jsstring) : 1 <= tokenCount s.
Proof.
  unfold tokenCount, split_ws.
  destruct (split_ws_from_head s [] false) as (t & ts & E). rewrite E.
  cbn [length]. lia.
Qed.

Lemma truncateContext_kept (cfg : Config) (context : jsstring) :
  maxTokens cfg < tokenCount context ->
  let k := keptTokens (maxTokens cfg) (tokenCount context) in
  0 <= k < tokenCount context /\
  truncateContext cfg context
  = join (lit " ") (firstn (Z.to_nat k) (split_ws context)) /\
  tokenCount (truncateContext cfg context) = Z.max k 1.
Proof.
  intros Hover k. pose proof (tokenCount_pos context) as Hpos.
  assert (Hk : 0 <= k < tokenCount context).
  { unfold k, keptTokens. destruct (Z.ltb_spec (maxTokens cfg) 0); lia. }
  assert (E : truncateContext cfg context
              = join (lit " ") (firstn (Z.to_nat k) (split_ws context))).
  { unfold truncateContext, slice0. fold (tokenCount context).
    destruct (Z.ltb_spec (maxTokens cfg) (tokenCount context)); [|lia].
    reflexivity. }
  split; [exact Hk|]. split; [exact E|].
  rewrite E. destruct (Z.eq_dec k 0) as [->|Hne].
  - reflexivity.
  - unfold tokenCount at 1. rewrite split_ws_join_prefix.
    + rewrite length_firstn. unfold tokenCount in Hk. lia.
    + lia.
    + unfold tokenCount in Hk. lia.
Qed.

(** X3. Over the budget the context is cut to the first [k] pieces, where
    [k] is [maxTokens] for a budget that is not negative and the number of
    pieces plus [maxTokens] (at least 0) for a negative one: a negative
    budget drops pieces from the end instead of emptying the context.  The
    token count of the result is [k], or 1 when [k] is 0 (the result is
    then the empty string); it never exceeds the token count of the
    input, whatever the budget. *)
Theorem truncateContext_never_grows (cfg : Config) (context : jsstring) :
  tokenCount (truncateContext cfg context) <= tokenCount context /\
  (maxTokens cfg < tokenCount context ->
   truncateContext cfg context
   = join (lit " ")
       (firstn (Z.to_nat (keptTokens (maxTokens cfg) (tokenCount context)))
          (split_ws context)) /\
   tokenCount (truncateContext cfg context)
   = Z.max (keptTokens (maxTokens cfg) (tokenCount context)) 1).
Proof.
  split.
  - destruct (Z.lt_ge_cases (maxTokens cfg) (tokenCount context)) as [Ho|Hw].
    + destruct (truncateContext_kept cfg context Ho) as (Hk & _ & Hc).
      rewrite Hc. pose proof (tokenCount_pos context). lia.
    + unfold truncateContext. fold (tokenCount context).
      destruct (Z.ltb_spec (maxTokens cfg) (tokenCount context)); lia.
  - intros Ho. destruct (truncateContext_kept cfg context Ho) as (_ & E & Hc).
    split; assumption.
Qed.

Lemma truncateContext_never_grows_witness :
  let cfg := mkConfig (lit "/r") defaultExtensions 100000 (-1)
               defaultIgnorePatterns true 64 in
  truncateContext cfg (lit "a b  c") = lit "a b".
Proof.
  intros cfg.
  destruct (truncateContext_never_grows cfg (lit "a b  c")) as (_ & H).
  destruct H as (E & _); [vm_compute; reflexivity|].
  rewrite E. vm_compute. reflexivity.
Defined.

(** X4. For a budget that is not negative, truncating twice is truncating
    once. *)
Theorem truncateContext_idempotent (cfg : Config) (context : jsstring) :
  0 <= maxTokens cfg ->
  truncateContext cfg (truncateContext cfg context)
  = truncateContext cfg context.
Proof.
  intros Hm.
  destruct (Z.lt_ge_cases (maxTokens cfg) (tokenCount context)) as [Ho|Hw].
  - destruct (truncateContext_kept cfg context Ho) as (Hk & E & Hc).
    unfold keptTokens in *.
    destruct (Z.ltb_spec (maxTokens cfg) 0); [lia|].
    rewrite Z.min_l in * by lia.
    destruct (Z.eq_dec (maxTokens cfg) 0) as [E0|Hne].
    + rewrite E, E0. cbn [Z.to_nat firstn join].
      unfold truncateContext. rewrite E0. reflexivity.
    + unfold truncateContext at 1.
      fold (tokenCount (truncateContext cfg context)). rewrite Hc.
      destruct (Z.ltb_spec (maxTokens cfg) (Z.max (maxTokens cfg) 1));
        [lia|reflexivity].
  - assert (E : truncateContext cfg context = context).
    { unfold truncateContext. fold (tokenCount context).
      destruct (Z.ltb_spec (maxTokens cfg) (tokenCount context));
        [lia|reflexivity]. }
    rewrite !E. reflexivity.
Qed.

Lemma truncateContext_idempotent_witness :
  let cfg := mkConfig (lit "/r") defaultExtensions 100000 2
               defaultIgnorePatterns true 64 in
  truncateContext cfg (truncateContext cfg (lit "a b  c"))
  = truncateContext cfg (lit "a b  c").
Proof.
  intros cfg. apply truncateContext_idempotent. vm_compute. discriminate.
Defined.

(** ** [formatSize]: the ends of the range *)

Lemma log1024_floor_ge5 (size : Z) :
  0 < size -> (5 <= log1024_floor size <-> 1024 ^ 5 <= size).
Proof.
  intros Hs. destruct (log1024_floor_spec size Hs) as (H0 & Hlo & Hhi).
  set (i := log1024_floor size) in *. split; intros H.
  - apply Z.le_trans with (1024 ^ i); [|exact Hlo].
    apply Z.pow_le_mono_r; lia.
  - destruct (Z.le_gt_cases 5 i) as [|Hlt]; [assumption|exfalso].
    assert (1024 ^ (i + 1) <= 1024 ^ 5) by (apply Z.pow_le_mono_r; lia).
    lia.
Qed.

(** X5. The unit of a non-zero byte count up to [1024^5 - 1024] is one of
    bytes, KB, MB, GB and TB; from [1024^5] on the table of units is left
    and the text reads "undefined" in place of a unit.  (The integers in
    between are left out: so close to [1024^5] the double-precision
    quotient of logarithms may already round to 5.) *)
Theorem formatSize_unit_range (b : Z) :
  b <> 0 ->
  let index := log1024_floor (Z.abs b) in
  let number :=
    numberToString (Z.sgn b) (toPrecision3 (Z.abs b) (1024 ^ index)) in
  (Z.abs b <= 1024 ^ 5 - 1024 ->
   exists unit, nth_error units (Z.to_nat index) = Some unit /\
                formatSize b = number ++ lit " " ++ unit) /\
  (1024 ^ 5 <= Z.abs b ->
   formatSize b = number ++ lit " undefined").
Proof.
  intros Hb index number.
  assert (Hs : 0 < Z.abs b) by lia.
  destruct (log1024_floor_spec (Z.abs b) Hs) as (H0 & _).
  pose proof (log1024_floor_ge5 (Z.abs b) Hs) as H5. fold index in H0, H5.
  assert (E : formatSize b
              = number ++ lit " " ++ nth (Z.to_nat index) units
                                       (lit "undefined")).
  { unfold formatSize. destruct (Z.eqb_spec b 0); [contradiction|].
    reflexivity. }
  split; intros H.
  - assert (Hi : (Z.to_nat index < length units)%nat).
    { change (length units) with 5%nat.
      destruct (Z.le_gt_cases 5 index) as [Hge|Hlt]; [|lia].
      apply H5 in Hge. lia. }
    destruct (nth_error units (Z.to_nat index)) as [unit|] eqn:En.
    + exists unit. split; [reflexivity|]. rewrite E.
      rewrite (nth_error_nth _ _ _ En). reflexivity.
    + apply nth_error_None in En. lia.
  - rewrite E, nth_overflow; [reflexivity|].
    change (length units) with 5%nat. apply H5 in H. lia.
Qed.

Lemma formatSize_unit_range_witness :
  formatSize (1024 ^ 5 + 1) = lit "1 undefined" /\
  formatSize (- (3 * 1024 ^ 4)) = lit "-3 TB".
Proof.
  split.
  - rewrite (proj2 (formatSize_unit_range (1024 ^ 5 + 1) ltac:(discriminate))).
    + vm_compute. reflexivity.
    + vm_compute. discriminate.
  - destruct (proj1 (formatSize_unit_range (- (3 * 1024 ^ 4))
                       ltac:(discriminate))) as (unit & Hu & E).
    + vm_compute. discriminate.
    + rewrite E. vm_compute in Hu. injection Hu as <-. vm_compute.
      reflexivity.
Defined.

Lemma toPrecision3_top (num den : Z) :
  0 < den -> 1999 * den <= 2 * num -> num < 1024 * den ->
  toPrecision3 num den = mkDecimal3 100 3 \/
  toPrecision3 num den = mkDecimal3 101 3 \/
  toPrecision3 num den = mkDecimal3 102 3.
Proof.
  intros Hd Hlo Hhi. unfold toPrecision3.
  destruct (Z.ltb_spec num (10 * den)); [lia|].
  destruct (Z.ltb_spec num (100 * den)); [lia|].
  destruct (Z.ltb_spec num (1000 * den)).
  - change (2 =? 3) with false. cbv iota. change (10 ^ (2 - 2)) with 1.
    pose proof (div_bounds (2 * num * 1 + den) (2 * den) ltac:(lia)) as Hq.
    set (q := (2 * num * 1 + den) / (2 * den)) in *. clearbody q.
    assert (q = 1000) by nia. subst q. left. reflexivity.
  - change (3 =? 3) with true. cbv iota.
    pose proof (div_bounds (2 * num + 10 * den) (20 * den) ltac:(lia)) as Hq.
    set (q := (2 * num + 10 * den) / (20 * den)) in *. clearbody q.
    assert (Hr : q = 100 \/ q = 101 \/ q = 102) by nia.
    destruct Hr as [ -> | [ -> | -> ] ]; auto.
Qed.

(** X6. A positive byte count below [1024^4] that lies between 999.5
    units and the next unit is printed with four digits rounded to tens,
    1000, 1010 or 1020 of the smaller unit (1023 bytes as "1020 bytes"):
    three significant digits, not three digits. *)
Theorem formatSize_four_digits (b : Z) :
  0 < b -> b < 1024 ^ 4 ->
  let index := log1024_floor b in
  1999 * 1024 ^ index <= 2 * b ->
  exists digits,
    In digits [lit "1000"; lit "1010"; lit "1020"] /\
    formatSize b
    = digits ++ lit " " ++ nth (Z.to_nat index) units (lit "undefined").
Proof.
  intros Hb _ index Hx.
  destruct (log1024_floor_spec b Hb) as (H0 & Hlo & Hhi).
  fold index in H0, Hlo, Hhi.
  assert (Hpos : 0 < 1024 ^ index) by (apply Z.pow_pos_nonneg; lia).
  assert (Hup : 1024 ^ (index + 1) = 1024 * 1024 ^ index).
  { rewrite Z.pow_add_r by lia. change (1024 ^ 1) with 1024. lia. }
  unfold formatSize. destruct (Z.eqb_spec b 0); [lia|].
  rewrite (Z.abs_eq b) by lia. rewrite (Z.sgn_pos b Hb). fold index.
  destruct (toPrecision3_top b (1024 ^ index) Hpos Hx ltac:(lia))
    as [E|[E|E]]; rewrite E.
  - exists (lit "1000"). split; [simpl; auto|reflexivity].
  - exists (lit "1010"). split; [simpl; auto|reflexivity].
  - exists (lit "1020"). split; [simpl; auto|reflexivity].
Qed.

Lemma formatSize_four_digits_witness :
  exists digits,
    In digits [lit "1000"; lit "1010"; lit "1020"] /\
    formatSize 1048000
    = digits ++ lit " " ++ nth (Z.to_nat (log1024_floor 1048000)) units
                             (lit "undefined").
Proof.
  apply (formatSize_four_digits 1048000).
  - lia.
  - vm_compute. reflexivity.
  - vm_compute. discriminate.
Defined.

(** ** TreeCrawler: what the returned tree looks like *)

Lemma filesOf_node_eq (node : FileNode) :
  filesOf_node node
  = if isDirectory node then filesOf (children node) else [node].
Proof. destruct node as [nm p s d ch]. destruct d; reflexivity. Qed.

Lemma filesOf_app (a b : list FileNode) :
  filesOf (a ++ b) = filesOf a ++ filesOf b.
Proof.
  induction a as [|n a IH]; simpl; [reflexivity|].
  rewrite IH, app_assoc. reflexivity.
Qed.

Lemma subsequence_nil_l {A : Type} (l : list A) : subsequence [] l.
Proof. induction l; constructor; assumption. Qed.

Section CrawlerShape.

Context {host : Host}.
Variable cfg : Config.

Lemma wellPathed_eq (dir : jsstring) (node : FileNode) :
  wellPathed dir node
  <-> path node = path_join dir (name node) /\
      Forall (wellPathed (path node)) (children node).
Proof.
  destruct node as [nm p s d ch]. cbn [wellPathed path name children].
  apply and_iff_compat_l.
  induction ch as [|c ch IH]; [split; [constructor|exact (fun _ => I)]|].
  rewrite IH. split.
  - intros [H1 H2]. constructor; assumption.
  - intros H. inversion H; subst. split; assumption.
Qed.

(** A property of the nodes that holds of a relevant file and passes from
    the children to a directory holds of every node [gatherFiles]
    returns. *)
Lemma collectFiles_has (Q : jsstring -> FileNode -> Prop) (dir : jsstring)
  (results : list (outcome (option FileNode))) :
  Forall (resultHas Q dir) results -> Forall (Q dir) (collectFiles results).
Proof.
  unfold collectFiles. destruct (existsb isThrown results); [constructor|].
  induction 1 as [|r results Hr _ IH]; [constructor|].
  cbn [flat_map]. apply Forall_app. split; [|exact IH].
  destruct r as [[node|]|e]; constructor; [exact Hr|constructor].
Qed.

Lemma gatherItems_has (Q : jsstring -> FileNode -> Prop)
  (items : list fsentry) :
  Forall (fun e => forall dir s, resultHas Q dir (fst (gatherItem cfg dir e s)))
         items ->
  forall dir s, Forall (resultHas Q dir) (fst (gatherItems cfg dir items s)).
Proof.
  induction 1 as [|x items Hx _ IH]; intros dir s; cbn [gatherItems].
  - constructor.
  - specialize (Hx dir s). destruct (gatherItem cfg dir x s) as [r s1].
    specialize (IH dir s1). destruct (gatherItems cfg dir items s1) as [rs s2].
    constructor; assumption.
Qed.

Section ResultInduction.

Variable Q : jsstring -> FileNode -> Prop.

Hypothesis Q_file :
  forall dir item bytes regular,
    isRelevantFile cfg (path_join dir item) (FsFile item bytes regular) = true ->
    Q dir (mkFileNode item (path_join dir item) bytes false []).

Hypothesis Q_directory :
  forall dir item bytes files,
    files <> [] -> Forall (Q (path_join dir item)) files ->
    Q dir (mkFileNode item (path_join dir item) bytes true files).

Lemma gatherItem_has (e : fsentry) :
  forall dir s, resultHas Q dir (fst (gatherItem cfg dir e s)).
Proof.
  induction e as [item bytes regular|item bytes|item bytes items IH|item]
    using fsentry_nested_ind; intros dir s.
  - cbn [gatherItem entryName]. cbv zeta.
    destruct (shouldIgnore cfg (path_join dir item)) as [[|]|ex];
      try exact I.
    destruct (isRelevantFile cfg (path_join dir item)
                (FsFile item bytes regular)) eqn:Hr; [|exact I].
    apply Q_file with (regular := regular). exact Hr.
  - rewrite gatherItem_dir. cbv zeta.
    destruct (shouldIgnore cfg (path_join dir item)) as [[|]|ex];
      exact I.
  - rewrite gatherItem_dir. cbv zeta.
    destruct (shouldIgnore cfg (path_join dir item)) as [[|]|ex];
      try exact I.
    unfold gatherFiles.
    pose proof (gatherItems_has Q items IH (path_join dir item) s) as Hp.
    destruct (gatherItems cfg (path_join dir item) items s) as [rs s'].
    cbn [fst] in Hp. apply collectFiles_has in Hp.
    destruct (collectFiles rs) as [|c files] eqn:Ec; [exact I|].
    cbn [length]. destruct (Z.ltb_spec 0 (Z.of_nat (S (length files))));
      [|lia].
    cbn [fst resultHas]. apply Q_directory; [discriminate|exact Hp].
  - cbn [gatherItem entryName]. cbv zeta.
    destruct (shouldIgnore cfg (path_join dir item)) as [[|]|ex]; exact I.
Qed.

Lemma gatherFiles_has (dir : jsstring) (listing : option (list fsentry))
  (s : AnalyzerState) :
  Forall (Q dir) (fst (gatherFiles cfg dir listing s)).
Proof.
  unfold gatherFiles. destruct listing as [items|]; [|constructor].
  assert (Hp : Forall (resultHas Q dir) (fst (gatherItems cfg dir items s))).
  { apply gatherItems_has. apply Forall_forall. intros e _.
    apply gatherItem_has. }
  destruct (gatherItems cfg dir items s) as [rs s'].
  apply collectFiles_has. exact Hp.
Qed.

End ResultInduction.

(** X7. Every file node of the tree [gatherFiles] returns, at any depth,
    is a leaf that is not a directory, of at most [maxFileSize] bytes, with
    a path that ends with one of the configured extensions and, with
    [ignoreFilesWithNoExtension], has an extension. *)
Theorem gatherFiles_files_are_relevant (dir : jsstring)
  (listing : option (list fsentry)) (s : AnalyzerState) :
  Forall (relevantLeaf cfg) (filesOf (fst (gatherFiles cfg dir listing s))).
Proof.
  assert (H : Forall (fun node => Forall (relevantLeaf cfg) (filesOf_node node))
                (fst (gatherFiles cfg dir listing s))).
  { apply (gatherFiles_has (fun _ node =>
                              Forall (relevantLeaf cfg) (filesOf_node node))).
    - intros d item bytes regular Hr. rewrite filesOf_node_eq.
      cbn [isDirectory]. constructor; [|constructor].
      unfold relevantLeaf. cbn [isDirectory children size path].
      unfold isRelevantFile in Hr. cbn [stat st_isFile st_size] in Hr.
      destruct (ignoreFilesWithNoExtension cfg);
        destruct (hasExtension (path_join d item)); cbn [andb negb] in Hr;
        try discriminate;
        (destruct regular; cbn [negb] in Hr; [|discriminate];
         apply andb_true_iff in Hr; destruct Hr as [Hs He];
         apply Z.leb_le in Hs; apply existsb_exists in He;
         repeat split; auto; discriminate).
    - intros d item bytes files _ Hf. rewrite filesOf_node_eq.
      cbn [isDirectory children].
      induction Hf as [|c files Hc _ IH]; [constructor|].
      cbn [filesOf]. apply Forall_app. split; assumption. }
  induction H as [|n nodes Hn _ IH]; [constructor|].
  cbn [filesOf]. apply Forall_app. split; assumption.
Qed.

Lemma gatherItem_named (e : fsentry) (dir : jsstring) (s : AnalyzerState)
  (node : FileNode) :
  fst (gatherItem cfg dir e s) = Returned (Some node) ->
  name node = entryName e.
Proof.
  destruct e as [item bytes regular|item bytes listing|item].
  - cbn [gatherItem entryName]. cbv zeta.
    destruct (shouldIgnore cfg (path_join dir item)) as [[|]|ex];
      try discriminate.
    destruct (isRelevantFile cfg _ _); [|discriminate].
    intros H. injection H as <-. reflexivity.
  - rewrite gatherItem_dir. cbv zeta.
    destruct (shouldIgnore cfg (path_join dir item)) as [[|]|ex];
      try discriminate.
    destruct (gatherFiles cfg (path_join dir item) listing s) as [files s'].
    destruct (0 <? Z.of_nat (length files)); [|discriminate].
    intros H. injection H as <-. reflexivity.
  - cbn [gatherItem entryName]. cbv zeta.
    destruct (shouldIgnore cfg (path_join dir item)) as [[|]|ex];
      discriminate.
Qed.

Lemma gatherItems_named (dir : jsstring) (items : list fsentry) :
  forall s,
    subsequence
      (map name
         (flat_map (fun r => match r with
                             | Returned (Some node) => [node]
                             | _ => []
                             end) (fst (gatherItems cfg dir items s))))
      (map entryName items).
Proof.
  induction items as [|x items IH]; intros s; cbn [gatherItems].
  - constructor.
  - pose proof (gatherItem_named x dir s) as Hx.
    destruct (gatherItem cfg dir x s) as [r s1]. specialize (IH s1).
    destruct (gatherItems cfg dir items s1) as [rs s2].
    cbn [fst flat_map map] in *.
    destruct r as [[node|]|ex]; cbn [app map].
    + rewrite (Hx node eq_refl). apply subsequence_keep. exact IH.
    + apply subsequence_skip. exact IH.
    + apply subsequence_skip. exact IH.
Qed.

(** X8. The nodes [gatherFiles] returns for a directory keep the order
    of the listing: their names are the names of the listing with some left
    out, nothing re-sorted, nothing added.  The path of every node, at any
    depth, is the path of its directory joined with its name. *)
Theorem gatherFiles_keeps_listing_order (dir : jsstring)
  (items : list fsentry) (s : AnalyzerState) :
  subsequence (map name (fst (gatherFiles cfg dir (Some items) s)))
              (map entryName items) /\
  Forall (wellPathed dir) (fst (gatherFiles cfg dir (Some items) s)).
Proof.
  split.
  - unfold gatherFiles. pose proof (gatherItems_named dir items s) as H.
    destruct (gatherItems cfg dir items s) as [rs s']. cbn [fst] in *.
    unfold collectFiles. destruct (existsb isThrown rs);
      [apply subsequence_nil_l|exact H].
  - apply (gatherFiles_has wellPathed).
    + intros d item bytes regular _. apply wellPathed_eq.
      cbn [path name children]. split; [reflexivity|constructor].
    + intros d item bytes files _ Hf. apply wellPathed_eq.
      cbn [path name children]. split; [reflexivity|exact Hf].
Qed.

Lemma gatherItems_member (dir : jsstring) (items : list fsentry)
  (e : fsentry) :
  In e items ->
  forall s, exists s', In (fst (gatherItem cfg dir e s'))
                          (fst (gatherItems cfg dir items s)).
Proof.
  induction items as [|x items IH]; intros Hin s; [destruct Hin|].
  cbn [gatherItems].
  destruct (gatherItem cfg dir x s) as [r s1] eqn:Ex.
  destruct Hin as [->|Hin].
  - exists s. rewrite Ex.
    destruct (gatherItems cfg dir items s1) as [rs s2]. left. reflexivity.
  - destruct (IH Hin s1) as (s' & H).
    destruct (gatherItems cfg dir items s1) as [rs s2].
    exists s'. right. exact H.
Qed.

(** X9. One entry of a directory that is not ignored and whose [stat]
    fails (a dangling link, say) empties the result for the whole
    directory: [gatherFiles] returns no node for it, whatever else the
    listing holds. *)
Theorem gatherFiles_stat_failure_empties_directory (dir item : jsstring)
  (items : list fsentry) (s : AnalyzerState) :
  In (FsBroken item) items ->
  shouldIgnore cfg (path_join dir item) = Returned false ->
  fst (gatherFiles cfg dir (Some items) s) = [].
Proof.
  intros Hin Hi. unfold gatherFiles.
  destruct (gatherItems_member dir items _ Hin s) as (s' & H).
  destruct (gatherItems cfg dir items s) as [rs s2]. cbn [fst] in *.
  unfold collectFiles.
  assert (E : existsb isThrown rs = true).
  { apply existsb_exists. eexists. split; [exact H|].
    cbn [gatherItem entryName]. cbv zeta. rewrite Hi. reflexivity. }
  rewrite E. reflexivity.
Qed.

End CrawlerShape.

Lemma gatherFiles_stat_failure_empties_directory_witness :
  let h := sampleHost 0 (fun _ => None) in
  let cfg := defaultConfig (lit "/r") in
  let items := [FsFile (lit "a.ts") 10 true; FsBroken (lit "link")] in
  fst (@gatherFiles h cfg (lit "/r") (Some items) initialState) = [] /\
  totalSize (snd (@gatherFiles h cfg (lit "/r") (Some items) initialState))
  = 10.
Proof.
  intros h cfg items. split.
  - apply (@gatherFiles_stat_failure_empties_directory h cfg (lit "/r")
             (lit "link")).
    + right. left. reflexivity.
    + vm_compute. reflexivity.
  - vm_compute. reflexivity.
Defined.

(** ** TreeCrawler: patterns that do not compile, and what [totalSize]
    counts *)

Lemma treeSize_app (a b : list FileNode) :
  treeSize (a ++ b) = treeSize a + treeSize b.
Proof.
  unfold treeSize. rewrite filesOf_app.
  induction (filesOf a) as [|n l IH]; simpl; [reflexivity|].
  rewrite IH. lia.
Qed.

Lemma treeSize_directory (nm p : jsstring) (bytes : Z)
  (files : list FileNode) :
  treeSize [mkFileNode nm p bytes true files] = treeSize files.
Proof.
  unfold treeSize. cbn [filesOf].
  rewrite app_nil_r, (filesOf_node_eq (mkFileNode nm p bytes true files)).
  reflexivity.
Qed.

Lemma collectFiles_returned (os : list (option FileNode)) :
  collectFiles (map Returned os) = flat_map optionNodes os.
Proof.
  unfold collectFiles.
  assert (E : existsb isThrown (map (@Returned (option FileNode)) os) = false).
  { induction os as [|o os IH]; simpl; [reflexivity|exact IH]. }
  rewrite E. clear E. induction os as [|o os IH]; [reflexivity|].
  cbn [map flat_map]. rewrite IH. destruct o; reflexivity.
Qed.

Section CrawlerAccounts.

Context {host : Host}.
Variable cfg : Config.

Lemma gatherItem_invalid_pattern :
  (exists source, In source (ignorePatterns cfg) /\ RegExp source = None) ->
  forall e dir s, exists ex, gatherItem cfg dir e s = (Thrown ex, s).
Proof.
  intros Hinv e dir s.
  destruct (shouldIgnore_invalid_pattern cfg (path_join dir (entryName e)) Hinv)
    as (ex & E).
  exists ex. destruct e as [item bytes regular|item bytes listing|item].
  - cbn [gatherItem entryName] in *. cbv zeta. rewrite E. reflexivity.
  - rewrite gatherItem_dir. cbn [entryName] in E. cbv zeta. rewrite E.
    reflexivity.
  - cbn [gatherItem entryName] in *. cbv zeta. rewrite E. reflexivity.
Qed.

Lemma gatherFiles_invalid_pattern :
  (exists source, In source (ignorePatterns cfg) /\ RegExp source = None) ->
  forall dir listing s, gatherFiles cfg dir listing s = ([], s).
Proof.
  intros Hinv dir listing s. unfold gatherFiles.
  destruct listing as [items|]; [|reflexivity].
  assert (H : forall its st,
             snd (gatherItems cfg dir its st) = st /\
             collectFiles (fst (gatherItems cfg dir its st)) = []).
  { induction its as [|x its IH]; intros st; [split; reflexivity|].
    cbn [gatherItems].
    destruct (gatherItem_invalid_pattern Hinv x dir st) as (ex & E).
    rewrite E. destruct (IH st) as [H1 H2].
    destruct (gatherItems cfg dir its st) as [rs s2]. cbn [fst snd] in *.
    split; [exact H1|reflexivity]. }
  destruct (H items s) as [H1 H2].
  destruct (gatherItems cfg dir items s) as [rs s']. cbn [fst snd] in *.
  subst s'. rewrite H2. reflexivity.
Qed.

(** X10. One ignore pattern that is not a regular expression (a glob such
    as [*.log], say) makes every callback of the crawler throw: the
    crawler returns the empty tree for every directory, counts nothing,
    and [analyze] fails with "No relevant files found." whatever the
    directory holds. *)
Theorem invalid_pattern_hides_every_file :
  (exists source, In source (ignorePatterns cfg) /\ RegExp source = None) ->
  (forall dir listing s, gatherFiles cfg dir listing s = ([], s)) /\
  (forall rootListing w,
     fst (analyze cfg rootListing w) = Thrown noRelevantFiles).
Proof.
  intros Hinv. split; [exact (gatherFiles_invalid_pattern Hinv)|].
  intros rootListing w. rewrite analyze_eq.
  rewrite (gatherFiles_invalid_pattern Hinv). rewrite gatherContext_eq.
  reflexivity.
Qed.

Lemma shouldIgnore_returns (filePath : jsstring) :
  (forall source, In source (ignorePatterns cfg) -> RegExp source <> None) ->
  exists b, shouldIgnore cfg filePath = Returned b.
Proof.
  intros Hv. destruct (compilePatterns_valid _ Hv) as (tests & E & _).
  unfold shouldIgnore. rewrite E. eauto.
Qed.

Lemma gatherItems_accounts (items : list fsentry) :
  Forall (fun e => statSucceeds e = true ->
                   forall dir s, exists o,
                     gatherItem cfg dir e s
                     = (Returned o, stateAfter (treeSize (optionNodes o)) s))
         items ->
  forallb statSucceeds items = true ->
  forall dir s, exists os,
    gatherItems cfg dir items s
    = (map Returned os, stateAfter (treeSize (flat_map optionNodes os)) s).
Proof.
  induction 1 as [|x items Hx _ IH]; intros Hs dir s.
  - exists []. cbn [gatherItems map flat_map]. rewrite stateAfter_zero.
    reflexivity.
  - cbn [forallb] in Hs. apply andb_true_iff in Hs. destruct Hs as [H1 H2].
    destruct (Hx H1 dir s) as (o & E).
    destruct (IH H2 dir (stateAfter (treeSize (optionNodes o)) s))
      as (os & Es).
    exists (o :: os). cbn [gatherItems]. rewrite E, Es.
    cbn [map flat_map]. rewrite treeSize_app, stateAfter_add. reflexivity.
Qed.

Lemma gatherItem_accounts (e : fsentry) :
  (forall source, In source (ignorePatterns cfg) -> RegExp source <> None) ->
  statSucceeds e = true ->
  forall dir s, exists o,
    gatherItem cfg dir e s
    = (Returned o, stateAfter (treeSize (optionNodes o)) s).
Proof.
  intros Hv.
  induction e as [item bytes regular|item bytes|item bytes items IH|item]
    using fsentry_nested_ind; intros Hs dir s.
  - cbn [gatherItem entryName]. cbv zeta.
    destruct (shouldIgnore_returns (path_join dir item) Hv) as ([|] & E);
      rewrite E.
    + exists None. rewrite stateAfter_zero. reflexivity.
    + destruct (isRelevantFile cfg _ _).
      * eexists (Some _). f_equal. unfold stateAfter, addToTotalSize.
        f_equal. unfold treeSize. cbn. lia.
      * exists None. rewrite stateAfter_zero. reflexivity.
  - rewrite gatherItem_dir. cbv zeta.
    destruct (shouldIgnore_returns (path_join dir item) Hv) as ([|] & E);
      rewrite E; exists None; rewrite stateAfter_zero; reflexivity.
  - rewrite gatherItem_dir. cbv zeta.
    destruct (shouldIgnore_returns (path_join dir item) Hv) as ([|] & E);
      rewrite E.
    + exists None. rewrite stateAfter_zero. reflexivity.
    + unfold gatherFiles.
      destruct (gatherItems_accounts items IH Hs (path_join dir item) s)
        as (os & Es).
      rewrite Es, collectFiles_returned.
      destruct (flat_map optionNodes os) as [|c files].
      * exists None. reflexivity.
      * cbn [length].
        destruct (Z.ltb_spec 0 (Z.of_nat (S (length files)))); [|lia].
        eexists (Some _). f_equal. cbn [optionNodes].
        rewrite treeSize_directory. reflexivity.
  - discriminate.
Qed.

(** X11. When the ignore patterns compile and no [stat] fails, a traversal
    adds to [totalSize] exactly the sizes of the file nodes of the tree it
    returns. *)
Theorem gatherFiles_totalSize_is_tree_size (dir : jsstring)
  (listing : option (list fsentry)) (s : AnalyzerState) :
  (forall source, In source (ignorePatterns cfg) -> RegExp source <> None) ->
  statSucceedsAll listing = true ->
  totalSize (snd (gatherFiles cfg dir listing s))
  = totalSize s + treeSize (fst (gatherFiles cfg dir listing s)).
Proof.
  intros Hv Hs. unfold gatherFiles. destruct listing as [items|].
  - destruct (gatherItems_accounts items) with (dir := dir) (s := s)
      as (os & E).
    + apply Forall_forall. intros e _. apply gatherItem_accounts. exact Hv.
    + exact Hs.
    + rewrite E, collectFiles_returned. reflexivity.
  - cbn [fst snd]. unfold treeSize. simpl. lia.
Qed.

End CrawlerAccounts.

Lemma invalid_pattern_hides_every_file_witness :
  let h := sampleHost 0 (fun _ => Some (lit "x")) in
  let cfg := mkConfig (lit "/r") defaultExtensions 100000 100000
               [lit "*.log"] true 64 in
  fst (@analyze h cfg sampleRoot (mkWorld initialState 0))
  = Thrown noRelevantFiles.
Proof.
  intros h cfg.
  apply (proj2 (@invalid_pattern_hides_every_file h cfg
                  (ex_intro _ (lit "*.log")
                     (conj (or_introl eq_refl) eq_refl)))).
Defined.

Lemma gatherFiles_totalSize_is_tree_size_witness :
  let h := sampleHost 0 (fun _ => None) in
  let cfg := defaultConfig (lit "/r") in
  totalSize (snd (@gatherFiles h cfg (lit "/r") sampleRoot initialState))
  = 0 + treeSize (fst (@gatherFiles h cfg (lit "/r") sampleRoot initialState)).
Proof.
  intros h cfg.
  apply (@gatherFiles_totalSize_is_tree_size h cfg).
  - exact defaultIgnorePatterns_compile.
  - reflexivity.
Defined.

(** ** ContextAssembler and Analyzer: what a run returns *)

Lemma countTotalFiles_filesOf (nodes : list FileNode) :
  countTotalFiles nodes = Z.of_nat (length (filesOf nodes)).
Proof.
  assert (Hlist : forall ns,
             Forall (fun n => countTotalFiles_node n
                              = Z.of_nat (length (filesOf_node n))) ns ->
             countTotalFiles ns = Z.of_nat (length (filesOf ns))).
  { induction 1 as [|n ns Hn _ IH]; [reflexivity|].
    cbn [countTotalFiles filesOf]. rewrite length_app, Hn, IH. lia. }
  apply Hlist. apply Forall_forall. intros n _.
  induction n as [nm p s d ch IH] using FileNode_nested_ind.
  rewrite countTotalFiles_node_eq, filesOf_node_eq.
  cbn [isDirectory children]. destruct d; [|reflexivity].
  apply Hlist. exact IH.
Qed.

Lemma addProcessed_zero (s : AnalyzerState) : addProcessed 0 s = s.
Proof. destruct s. unfold addProcessed. simpl. f_equal. lia. Qed.

Lemma addProcessed_add (a b : nat) (s : AnalyzerState) :
  addProcessed b (addProcessed a s) = addProcessed (a + b) s.
Proof. unfold addProcessed. simpl. f_equal. lia. Qed.

Section RunFacts.

Context {host : Host}.
Variable cfg : Config.

Lemma blocksOf_cons (node : FileNode) (rest : list FileNode) :
  blocksOf (node :: rest) = blocksOf [node] ++ blocksOf rest.
Proof.
  unfold blocksOf. cbn [filesOf]. rewrite app_nil_r. apply flat_map_app.
Qed.

Lemma blocksOf_node (node : FileNode) :
  blocksOf [node]
  = if isDirectory node then blocksOf (children node)
    else match readFile (path node) with
         | Some content => [fileBlock node content]
         | None => []
         end.
Proof.
  unfold blocksOf. cbn [filesOf]. rewrite app_nil_r, filesOf_node_eq.
  destruct (isDirectory node); [reflexivity|].
  cbn [flat_map]. apply app_nil_r.
Qed.

Lemma blocksOf_length (nodes : list FileNode) :
  (length (blocksOf nodes) <= length (filesOf nodes))%nat.
Proof.
  unfold blocksOf. induction (filesOf nodes) as [|n l IH]; [reflexivity|].
  cbn [flat_map]. rewrite length_app. cbn [length].
  destruct (readFile (path n)); cbn [length]; lia.
Qed.

Lemma assemblyExact_ret :
  assemblyExact cfg 0 [] (fun context => ret context).
Proof.
  intros context w _. unfold ret.
  rewrite app_nil_r, addProcessed_zero, Nat.add_0_r. destruct w. reflexivity.
Qed.

Lemma assemblyExact_seq (n1 n2 : nat) (b1 b2 : list jsstring)
  (m1 m2 : list jsstring -> M (list jsstring)) :
  assemblyExact cfg n1 b1 m1 -> assemblyExact cfg n2 b2 m2 ->
  assemblyExact cfg (n1 + n2) (b1 ++ b2)
    (fun context => bind (m1 context) m2).
Proof.
  intros H1 H2 context w Hw. apply withinLimit_add in Hw.
  destruct Hw as [W1 W2]. unfold bind. rewrite (H1 context w W1).
  rewrite H2 by exact W2. cbn [counters probes].
  rewrite addProcessed_add, length_app, <- app_assoc, Nat.add_assoc.
  reflexivity.
Qed.

Lemma assemblyExact_guard :
  assemblyExact cfg 1 []
    (fun context => bind (checkMemoryUsage cfg) (fun _ => ret context)).
Proof.
  intros context w Hw. unfold bind, checkMemoryUsage, ret.
  specialize (Hw O ltac:(lia)). rewrite Nat.add_0_r in Hw.
  destruct (Z.ltb_spec (memoryLimitMB cfg * 1048576) (heapUsed (probes w)));
    [lia|].
  rewrite app_nil_r, addProcessed_zero, Nat.add_1_r. reflexivity.
Qed.

Lemma assemblyExact_read (node : FileNode) :
  assemblyExact cfg 0
    (match readFile (path node) with
     | Some content => [fileBlock node content]
     | None => []
     end)
    (readAndPush node).
Proof.
  intros context w _. unfold readAndPush.
  destruct (readFile (path node)) as [content|].
  - rewrite Nat.add_0_r. reflexivity.
  - rewrite app_nil_r, addProcessed_zero, Nat.add_0_r. destruct w.
    reflexivity.
Qed.

Lemma assemblyExact_ext (n n' : nat) (b b' : list jsstring)
  (m m' : list jsstring -> M (list jsstring)) :
  (forall context w, m context w = m' context w) -> n = n' -> b = b' ->
  assemblyExact cfg n b m -> assemblyExact cfg n' b' m'.
Proof. intros E <- <- H context w Hw. rewrite <- E. apply H. exact Hw. Qed.

Lemma processFileTree_exact_of (nodes : list FileNode) :
  Forall (fun n => assemblyExact cfg (countNode n) (blocksOf [n])
                     (processNode cfg n)) nodes ->
  assemblyExact cfg (countNodes nodes) (blocksOf nodes)
    (processFileTree cfg nodes).
Proof.
  induction 1 as [|n rest Hn _ IH].
  - exact assemblyExact_ret.
  - rewrite blocksOf_cons. exact (assemblyExact_seq _ _ _ _ _ _ Hn IH).
Qed.

Lemma processNode_exact (node : FileNode) :
  assemblyExact cfg (countNode node) (blocksOf [node]) (processNode cfg node).
Proof.
  induction node as [nm p s d ch IH] using FileNode_nested_ind.
  set (node := mkFileNode nm p s d ch).
  apply (assemblyExact_ext
           ((if d then countNodes ch else O) + 1)
           _ (blocksOf [node] ++ []) _
           (fun context =>
              bind (if d then processFileTree cfg ch context
                    else readAndPush node context)
                (fun context' =>
                   bind (checkMemoryUsage cfg) (fun _ => ret context')))).
  - intros context w. rewrite processNode_eq. reflexivity.
  - rewrite countNode_eq. cbn [isDirectory children node]. lia.
  - apply app_nil_r.
  - rewrite blocksOf_node. cbn [isDirectory children path node].
    destruct d.
    + apply (assemblyExact_seq _ _ _ _ (processFileTree cfg ch)).
      * apply processFileTree_exact_of. exact IH.
      * exact assemblyExact_guard.
    + apply (assemblyExact_seq _ _ _ _ (readAndPush node)).
      * exact (assemblyExact_read node).
      * exact assemblyExact_guard.
Qed.

Lemma processFileTree_exact (nodes : list FileNode) :
  assemblyExact cfg (countNodes nodes) (blocksOf nodes)
    (processFileTree cfg nodes).
Proof.
  apply processFileTree_exact_of. apply Forall_forall. intros n _.
  apply processNode_exact.
Qed.

(** X12. With every heap probe within the limit, [processFileTree] visits
    the tree depth-first and pushes, in that order, one block for each file
    that can be read and none for the others; [processedFiles] grows by the
    number of blocks pushed and one probe is made per node. *)
Theorem processFileTree_pushes_readable_blocks (nodes : list FileNode)
  (context : list jsstring) (w : World) :
  withinLimit cfg (probes w) (countNodes nodes) ->
  processFileTree cfg nodes context w
  = (Returned (context ++ blocksOf nodes),
     mkWorld (addProcessed (length (blocksOf nodes)) (counters w))
       (probes w + countNodes nodes)%nat).
Proof.
  revert context w. change (assemblyExact cfg (countNodes nodes)
                              (blocksOf nodes) (processFileTree cfg nodes)).
  apply processFileTree_exact_of. apply Forall_forall. intros n _.
  apply processNode_exact.
Qed.

(** [analyze] with every probe within the limit. *)
Lemma analyze_within_limit (rootListing : option (list fsentry)) (w : World) :
  let run := gatherFiles cfg (directory cfg) rootListing (counters w) in
  let fileNode := fst run in
  let blocks := blocksOf fileNode in
  let after :=
    mkWorld
      (mkState (processedFiles (snd run) + Z.of_nat (length blocks))
         (countTotalFiles fileNode) (totalSize (snd run)))
      (probes w + countNodes fileNode)%nat in
  withinLimit cfg (probes w) (countNodes fileNode) ->
  analyze cfg rootListing w
  = match blocks with
    | [] => (Thrown noRelevantFiles, after)
    | _ :: _ =>
        (Returned
           (mkOutput (truncateContext cfg (join [LF] blocks))
              (countTokens (truncateContext cfg (join [LF] blocks)))
              (buildTreeView fileNode [])
              (mkFileStats (totalSize (snd run)) (countTotalFiles fileNode)
                 (processedFiles (snd run) + Z.of_nat (length blocks)))),
         after)
    end.
Proof.
  cbv zeta. intros Hw. rewrite analyze_eq.
  destruct (gatherFiles cfg (directory cfg) rootListing (counters w))
    as [fileNode s1].
  cbn [fst snd] in *. rewrite gatherContext_eq. cbn [counters probes].
  rewrite (processFileTree_exact fileNode) by exact Hw.
  cbn [app counters probes addProcessed processedFiles totalFiles totalSize].
  destruct (blocksOf fileNode) as [|b bs]; reflexivity.
Qed.

End RunFacts.

Section AnalyzeFacts.

Context {host : Host}.
Variable cfg : Config.


(** What a returned record tells about the run. *)
Lemma analyze_returned (rootListing : option (list fsentry)) (w w1 : World)
  (o : Output) :
  analyze cfg rootListing w = (Returned o, w1) ->
  let run := gatherFiles cfg (directory cfg) rootListing (counters w) in
  let fileNode := fst run in
  let blocks := blocksOf fileNode in
  withinLimit cfg (probes w) (countNodes fileNode) /\
  blocks <> [] /\
  o = mkOutput (truncateContext cfg (join [LF] blocks))
        (countTokens (truncateContext cfg (join [LF] blocks)))
        (buildTreeView fileNode [])
        (mkFileStats (totalSize (snd run)) (countTotalFiles fileNode)
           (processedFiles (snd run) + Z.of_nat (length blocks))) /\
  w1 = mkWorld
         (mkState (processedFiles (snd run) + Z.of_nat (length blocks))
            (countTotalFiles fileNode) (totalSize (snd run)))
         (probes w + countNodes fileNode)%nat.
Proof.
  intros E. cbv zeta.
  destruct (analyze_run cfg rootListing w) as [(W & _)|(_ & T)].
  - split; [exact W|].
    rewrite (analyze_within_limit cfg rootListing w W) in E.
    destruct (blocksOf (fst (gatherFiles cfg (directory cfg) rootListing
                               (counters w)))) as [|b bs].
    + discriminate.
    + split; [discriminate|]. injection E as <- <-. split; reflexivity.
  - rewrite E in T. discriminate.
Qed.

(** X14. A record returned by a fresh instance reports at least one
    processed file and never more processed files than files:
    [processedCount] is the number of readable files of the tree,
    [totalCount] the number of its files. *)
Theorem analyze_fresh_instance_counts (rootListing : option (list fsentry))
  (k : nat) (o : Output) :
  fst (analyze cfg rootListing (mkWorld initialState k)) = Returned o ->
  let fileNode :=
    fst (gatherFiles cfg (directory cfg) rootListing initialState) in
  out_totalCount (out_files o) = Z.of_nat (length (filesOf fileNode)) /\
  out_processedCount (out_files o) = Z.of_nat (length (blocksOf fileNode)) /\
  1 <= out_processedCount (out_files o) <= out_totalCount (out_files o).
Proof.
  intros E. cbv zeta.
  destruct (analyze cfg rootListing (mkWorld initialState k)) as [r w1] eqn:Ea.
  cbn [fst] in E. subst r.
  destruct (analyze_returned _ _ _ _ Ea) as (_ & Hb & -> & _).
  cbn [counters] in *.
  destruct (gatherFiles_sameRun cfg (directory cfg) rootListing)
    as (files & d & Eg).
  rewrite Eg in *.
  cbn [fst snd stateAfter processedFiles initialState out_files
       out_totalCount out_processedCount] in *.
  rewrite countTotalFiles_filesOf.
  pose proof (blocksOf_length files) as Hl.
  destruct (blocksOf files) as [|b bs]; [contradiction|].
  cbn [length] in *. repeat split; lia.
Qed.


End AnalyzeFacts.

Lemma processFileTree_pushes_readable_blocks_witness :
  let h := sampleHost 1000 sampleFiles in
  fst (@processFileTree h (defaultConfig (lit "/r")) sampleTree []
         (mkWorld initialState 0))
  = Returned (@blocksOf h sampleTree).
Proof.
  intros h.
  rewrite (@processFileTree_pushes_readable_blocks h
             (defaultConfig (lit "/r")) sampleTree [] (mkWorld initialState 0)).
  - reflexivity.
  - intros j _. vm_compute. discriminate.
Defined.


Lemma analyze_fresh_instance_counts_witness :
  match fst (@analyze (sampleHost 1000 sampleFiles) (defaultConfig (lit "/r"))
               sampleRoot (mkWorld initialState 0)) with
  | Returned o =>
      1 <= out_processedCount (out_files o) <= out_totalCount (out_files o)
  | Thrown _ => False
  end.
Proof.
  destruct (fst (@analyze (sampleHost 1000 sampleFiles)
                   (defaultConfig (lit "/r")) sampleRoot
                   (mkWorld initialState 0))) as [o|e] eqn:E.
  - exact (proj2 (proj2 (@analyze_fresh_instance_counts
                           (sampleHost 1000 sampleFiles)
                           (defaultConfig (lit "/r")) sampleRoot 0%nat o E))).
  - vm_compute in E. discriminate.
Defined.


Section CountFacts.

Context {host : Host}.
Variable cfg : Config.

(** X16. [countTotalFiles] counts the file nodes of a tree, the files of
    every directory included and no directory itself; on a tree returned
    by [gatherFiles] it is at least the number of top-level nodes, since
    every directory kept holds a file. *)
Theorem countTotalFiles_counts_files :
  (forall nodes,
     countTotalFiles nodes = Z.of_nat (length (filesOf nodes))) /\
  (forall dir listing s,
     Z.of_nat (length (fst (gatherFiles cfg dir listing s)))
     <= countTotalFiles (fst (gatherFiles cfg dir listing s))).
Proof.
  split; [exact countTotalFiles_filesOf|].
  intros dir listing s. apply pruned_countTotalFiles.
  apply gatherFiles_pruned.
Qed.

End CountFacts.

(** ** [hasExtension] and the tree view, once more *)

Lemma takeWhile_all_id {A : Type} (p : A -> bool) (l : list A) :
  forallb p l = true -> takeWhile p l = l.
Proof.
  induction l as [|x l IH]; simpl; [reflexivity|].
  intros H. apply andb_true_iff in H. destruct H as [Hx H].
  rewrite Hx, IH by exact H. reflexivity.
Qed.

Lemma dropWhile_none {A : Type} (p : A -> bool) (l : list A) :
  forallb (fun x => negb (p x)) l = true -> dropWhile p l = l.
Proof.
  destruct l as [|x l]; simpl; [reflexivity|].
  intros H. apply andb_true_iff in H. destruct H as [Hx _].
  apply negb_true_iff in Hx. rewrite Hx. reflexivity.
Qed.

Lemma basename_idempotent (p : jsstring) : basename (basename p) = basename p.
Proof.
  destruct (rev_path_parts p) as (_ & _ & _ & _ & Hns & _ & _).
  unfold basename at 1.
  rewrite (dropWhile_none isSlash) by exact Hns.
  rewrite (takeWhile_all_id notSlash) by exact Hns.
  apply rev_involutive.
Qed.

(** X17. [hasExtension] looks at the final component of the path alone:
    dots in the names of the directories before it do not count, and
    trailing separators are skipped. *)
Theorem hasExtension_of_basename (p : jsstring) :
  hasExtension p = hasExtension (basename p).
Proof.
  rewrite !hasExtension_dotAfterStart. unfold dotAfterStart.
  rewrite basename_idempotent. reflexivity.
Qed.

Lemma startsWith_app (a b : jsstring) : startsWith (a ++ b) a = true.
Proof. apply startsWith_prefix. eauto. Qed.

Lemma startsWith_trans (s a b : jsstring) :
  startsWith s (a ++ b) = true -> startsWith s a = true.
Proof.
  rewrite !startsWith_prefix. intros (r & ->). rewrite <- app_assoc. eauto.
Qed.

Lemma spec_treeLines_indented (nodes : list FileNode) :
  forall indent,
    Forall (fun line => startsWith line indent = true)
           (spec_treeLines nodes indent).
Proof.
  assert (Hlist : forall ns,
             Forall (fun n => forall indent l,
                       Forall (fun line => startsWith line indent = true)
                              (spec_nodeLines indent l n)) ns ->
             forall indent,
               Forall (fun line => startsWith line indent = true)
                      (spec_treeLines ns indent)).
  { induction 1 as [|n ns Hn _ IH]; intros indent; [constructor|].
    cbn [spec_treeLines]. apply Forall_app. split; [apply Hn|apply IH]. }
  apply Hlist. apply Forall_forall. intros n _.
  induction n as [nm p s d ch IH] using FileNode_nested_ind.
  intros indent l. rewrite spec_nodeLines_eq. cbn [isDirectory children].
  constructor.
  - unfold treeLine. apply startsWith_app.
  - destruct d; [|constructor].
    pose proof (Hlist ch IH (childIndent indent l)) as H.
    eapply Forall_impl; [|exact H]. intros line Hl.
    unfold childIndent in Hl. eapply startsWith_trans. exact Hl.
Qed.

(** X18. The tree view is a sequence of lines, one per node, each closed
    by a line feed and each beginning with the indent handed to
    [buildTreeView]; the lines below a directory begin with the indent of
    the directory extended by four code units. *)
Theorem buildTreeView_lines_are_indented (nodes : list FileNode)
  (indent : jsstring) :
  exists lines,
    buildTreeView nodes indent = unlines lines /\
    length lines = countNodes nodes /\
    Forall (fun line => startsWith line indent = true) lines /\
    (forall node isLast,
       isDirectory node = true ->
       exists below,
         buildTreeView_entry indent isLast node
         = (treeLine indent isLast node ++ [LF]) ++ unlines below /\
         Forall (fun line =>
                   startsWith line (childIndent indent isLast) = true)
                below /\
         length (childIndent indent isLast) = (length indent + 4)%nat).
Proof.
  exists (spec_treeLines nodes indent).
  split; [apply buildTreeView_lines|].
  split; [apply spec_treeLines_length|].
  split; [apply spec_treeLines_indented|].
  intros node isLast Hd.
  exists (spec_treeLines (children node) (childIndent indent isLast)).
  rewrite buildTreeView_entry_eq, Hd, buildTreeView_lines.
  split; [reflexivity|]. split; [apply spec_treeLines_indented|].
  unfold childIndent. rewrite length_app. destruct isLast; reflexivity.
Qed.

Lemma buildTreeView_lines_are_indented_witness :
  exists below,
    buildTreeView_entry (lit ">") false sampleSrcNode
    = (treeLine (lit ">") false sampleSrcNode ++ [LF]) ++ unlines below /\
    Forall (fun line => startsWith line (childIndent (lit ">") false) = true)
           below.
Proof.
  destruct (buildTreeView_lines_are_indented [] (lit ">"))
    as (_ & _ & _ & _ & H).
  destruct (H sampleSrcNode false eq_refl) as (below & E & F & _).
  exists below. split; assumption.
Defined.
